(** * tass_scraper.py: a shallow embedding and its verified properties

    The development follows the layout of [tass_scraper.py]:
    [NewsScraperConfig], [UserAgentRotator], and [NewsScraper] with its
    methods [get_top_words], [fetch_article_content], [get_news_list],
    [save_to_csv], [process_category] and [run], and finally [main].

    Python objects are records, exceptions are values of [exn], a method
    that reads or writes [self] is a function in the state-and-error monad
    [M].  Everything the program learns from outside (the network, the
    random generator, the thread scheduler, the file system) is read from a
    [World] of oracles, so that every function below is total and can be
    evaluated on concrete inputs. *)

From Stdlib Require Import String Ascii List ZArith QArith Bool Arith Lia Lqa.
From Stdlib Require Import DecimalString.
Import ListNotations.

Local Open Scope string_scope.
Local Open Scope list_scope.
Local Open Scope Z_scope.

(** ** A small Python prelude *)

(** The exception classes the program can meet.  [RequestException] stands
    for [requests.exceptions.RequestException] and all its subclasses
    (connection errors, [HTTPError] from [raise_for_status], exhausted
    retries); the other four are the built-in ones. *)
Inductive exn : Type :=
| ValueError (msg : string)
| KeyError (key : string)
| IndexError (msg : string)
| OSError (path : string)
| RequestException (msg : string).

Definition is_request_exception (e : exn) : bool :=
  match e with
  | RequestException _ => true
  | _ => false
  end.

(** A call either raises or returns. *)
Definition result (A : Type) : Type := (exn + A)%type.

Definition returns {A : Type} (r : result A) : bool :=
  match r with
  | inr _ => true
  | inl _ => false
  end.

(** Python dictionaries keep insertion order, and the order is observable
    (iteration, [random.choice] over a comprehension), so a [dict] with
    string keys is an association list with unique keys. *)
Definition dict (V : Type) : Type := list (string * V).

Fixpoint dict_get {V : Type} (d : dict V) (k : string) : option V :=
  match d with
  | [] => None
  | (k', v) :: d' => if String.eqb k' k then Some v else dict_get d' k
  end.

(** [d[k] = v]: overwrite in place, or insert at the end. *)
Fixpoint dict_set {V : Type} (d : dict V) (k : string) (v : V) : dict V :=
  match d with
  | [] => [(k, v)]
  | (k', v') :: d' =>
      if String.eqb k' k then (k', v) :: d' else (k', v') :: dict_set d' k v
  end.

Definition dict_keys {V : Type} (d : dict V) : list string := map fst d.
Definition dict_values {V : Type} (d : dict V) : list V := map snd d.
Definition dict_mem {V : Type} (d : dict V) (k : string) : bool :=
  match dict_get d k with
  | Some _ => true
  | None => false
  end.

(** [min(xs)]; [None] is the [ValueError] Python raises on an empty
    argument. *)
Fixpoint py_min (xs : list Z) : option Z :=
  match xs with
  | [] => None
  | x :: xs' =>
      match py_min xs' with
      | None => Some x
      | Some m => Some (Z.min x m)
      end
  end.

Fixpoint py_max (xs : list Z) : option Z :=
  match xs with
  | [] => None
  | x :: xs' =>
      match py_max xs' with
      | None => Some x
      | Some m => Some (Z.max x m)
      end
  end.

(** ** class NewsScraperConfig *)

(** The two delays are Python floats; they are modelled as rationals, which
    covers every finite float and leaves out [nan] and the infinities. *)
Record NewsScraperConfig : Type := {
  headlines_per_category : Z;
  categories : list string;
  max_workers : Z;
  output_dir : string;
  include_top_words : bool;
  min_delay : Q;
  max_delay : Q;
  max_retries : Z;
  use_csv : bool
}.

Definition default_config : NewsScraperConfig := {|
  headlines_per_category := 20;
  categories := ["politics"; "world"; "economy"; "defense"; "science";
                 "emergencies"; "society"; "pressreview"; "sports"];
  max_workers := 2;
  output_dir := "news_data";
  include_top_words := false;
  min_delay := (2 # 10)%Q;
  max_delay := (1 # 1)%Q;
  max_retries := 3;
  use_csv := false
|}.

Definition validate (c : NewsScraperConfig) : result unit :=
  if headlines_per_category c <=? 0 then
    inl (ValueError "headlines_per_category must be positive")
  else if max_workers c <=? 0 then
    inl (ValueError "max_workers must be positive")
  else if Qle_bool (max_delay c) (min_delay c) then
    inl (ValueError "min_delay must be less than max_delay")
  else match categories c with
       | [] => inl (ValueError "at least one category must be specified")
       | _ :: _ => inr tt
       end.

(** ** class UserAgentRotator *)

(** [self.usage_counts = {ua: 0 for ua in self.user_agents}]: a repeated
    user agent string is one key. *)
Definition init_usage_counts (user_agents : list string) : dict Z :=
  fold_left (fun d ua => dict_set d ua 0) user_agents [].

(** [least_used = [ua for ua, count in self.usage_counts.items()
                   if count == min_usage]] *)
Definition least_used (counts : dict Z) (min_usage : Z) : list string :=
  map fst (filter (fun p => snd p =? min_usage) counts).

(** [get_next_user_agent], with the index drawn by [random.choice] given as
    [choice]; [random.choice(seq)] is [seq[randbelow(len(seq))]], so the
    draw is reduced modulo the length. *)
Definition get_next_user_agent (choice : nat) (counts : dict Z)
  : result (string * dict Z) :=
  match py_min (dict_values counts) with
  | None => inl (ValueError "min() arg is an empty sequence")
  | Some min_usage =>
      let candidates := least_used counts min_usage in
      match nth_error candidates (choice mod length candidates) with
      | None => inl (IndexError "Cannot choose from an empty sequence")
      | Some selected_agent =>
          match dict_get counts selected_agent with
          | None => inl (KeyError selected_agent)
          | Some n => inr (selected_agent, dict_set counts selected_agent (n + 1))
          end
      end
  end.

(** [n] successive calls, the draws given by [choices]; a call that raises
    leaves the counters as they are. *)
Fixpoint rotate (choices : list nat) (counts : dict Z) : dict Z :=
  match choices with
  | [] => counts
  | c :: rest =>
      match get_next_user_agent c counts with
      | inr (_, counts') => rotate rest counts'
      | inl _ => rotate rest counts
      end
  end.

Fixpoint rotate_agents (choices : list nat) (counts : dict Z)
  : list (result string) :=
  match choices with
  | [] => []
  | c :: rest =>
      match get_next_user_agent c counts with
      | inr (ua, counts') => inr ua :: rotate_agents rest counts'
      | inl e => inl e :: rotate_agents rest counts
      end
  end.

(** ** Strings: the fragment of [str] and [re] the program uses

    Text is ASCII: a [string] is a sequence of bytes, and the character
    classes below are the ASCII ones ([\w] is [[A-Za-z0-9_]]).  Characters
    outside ASCII are treated as separators. *)

Definition is_upper (c : ascii) : bool :=
  let n := nat_of_ascii c in (65 <=? n)%nat && (n <=? 90)%nat.

Definition is_lower (c : ascii) : bool :=
  let n := nat_of_ascii c in (97 <=? n)%nat && (n <=? 122)%nat.

Definition is_digit (c : ascii) : bool :=
  let n := nat_of_ascii c in (48 <=? n)%nat && (n <=? 57)%nat.

Definition is_word_char (c : ascii) : bool :=
  is_upper c || is_lower c || is_digit c || Ascii.eqb c "_"%char.

Definition is_space (c : ascii) : bool :=
  let n := nat_of_ascii c in
  (n =? 32)%nat || ((9 <=? n)%nat && (n <=? 13)%nat).

Definition lower_char (c : ascii) : ascii :=
  if is_upper c then ascii_of_nat (nat_of_ascii c + 32) else c.

(** [s.lower()] *)
Fixpoint lower (s : string) : string :=
  match s with
  | EmptyString => EmptyString
  | String c s' => String (lower_char c) (lower s')
  end.

(** [sep.join(parts)] *)
Fixpoint join (sep : string) (parts : list string) : string :=
  match parts with
  | [] => EmptyString
  | [p] => p
  | p :: rest => (p ++ sep ++ join sep rest)%string
  end.

(** [s.isdigit()]: non-empty and made of digits only. *)
Fixpoint all_digits (s : string) : bool :=
  match s with
  | EmptyString => true
  | String c s' => is_digit c && all_digits s'
  end.

Definition isdigit (s : string) : bool :=
  match s with
  | EmptyString => false
  | String _ _ => all_digits s
  end.

Fixpoint lstrip (s : string) : string :=
  match s with
  | EmptyString => EmptyString
  | String c s' => if is_space c then lstrip s' else s
  end.

Fixpoint string_rev (s : string) : string :=
  match s with
  | EmptyString => EmptyString
  | String c s' => (string_rev s' ++ String c EmptyString)%string
  end.

(** [s.strip()] *)
Definition strip (s : string) : string :=
  string_rev (lstrip (string_rev (lstrip s))).

Definition string_last (s : string) : option ascii :=
  match string_rev s with
  | EmptyString => None
  | String c _ => Some c
  end.

(** The greedy [\w+]: the longest prefix of word characters, and the rest
    of the subject. *)
Fixpoint span_word (s : string) : string * string :=
  match s with
  | EmptyString => (EmptyString, EmptyString)
  | String c s' =>
      if is_word_char c
      then let (w, r) := span_word s' in (String c w, r)
      else (EmptyString, s)
  end.

Definition is_word_opt (c : option ascii) : bool :=
  match c with
  | Some c => is_word_char c
  | None => false
  end.

Definition string_head (s : string) : option ascii :=
  match s with
  | EmptyString => None
  | String c _ => Some c
  end.

(** [\b] at the position between [prev] and the first character of [s]. *)
Definition word_boundary (prev : option ascii) (s : string) : bool :=
  xorb (is_word_opt prev) (is_word_opt (string_head s)).

(** First alternative, [\b\w+'\w+].  Giving back characters of the first
    [\w+] cannot help: the character after a shorter run is a word
    character, not the apostrophe.  The second [\w+] is greedy and nothing
    follows it. *)
Definition match_apostrophe (prev : option ascii) (s : string)
  : option (string * string) :=
  if word_boundary prev s then
    match span_word s with
    | (String c w1, String "'"%char r1) =>
        match span_word r1 with
        | (String d w2, r2) =>
            Some ((String c w1 ++ String "'"%char (String d w2))%string, r2)
        | (EmptyString, _) => None
        end
    | _ => None
    end
  else None.

(** Second alternative, [\w+\b]: after the longest run the next character
    is not a word character, so the closing [\b] holds. *)
Definition match_word (s : string) : option (string * string) :=
  match span_word s with
  | (String c w, r) => Some (String c w, r)
  | (EmptyString, _) => None
  end.

(** [re.findall(r"\b\w+'\w+|\w+\b", s)]: scan from the left; at each
    position try the alternatives in order; after a match resume at its
    end, otherwise move one character on.  Every round consumes at least
    one character, so [length s] rounds of [fuel] are enough. *)
Fixpoint findall_from (fuel : nat) (prev : option ascii) (s : string)
  : list string :=
  match fuel with
  | O => []
  | S fuel' =>
      match s with
      | EmptyString => []
      | String c s' =>
          let m := match match_apostrophe prev s with
                   | Some m => Some m
                   | None => match_word s
                   end in
          match m with
          | Some (tok, rest) => tok :: findall_from fuel' (string_last tok) rest
          | None => findall_from fuel' (Some c) s'
          end
      end
  end.

Definition findall (s : string) : list string :=
  findall_from (String.length s) None s.

(** [re.sub] of the pattern ['s$] by the empty string, on a word without
    line breaks: drop a final
    ['s]. *)
Fixpoint sub_possessive (w : string) : string :=
  match w with
  | EmptyString => EmptyString
  | String c w' =>
      match c, w' with
      | "'"%char, String "s"%char EmptyString => EmptyString
      | _, _ => String c (sub_possessive w')
      end
  end.

(** ** collections.Counter *)

(** [counts[w] += 1] on a [Counter]: a missing key counts from 0 and is
    inserted last. *)
Fixpoint counter_add (d : dict Z) (w : string) : dict Z :=
  match d with
  | [] => [(w, 1)]
  | (k, n) :: d' =>
      if String.eqb k w then (k, n + 1) :: d' else (k, n) :: counter_add d' w
  end.

Definition Counter (ws : list string) : dict Z :=
  fold_left counter_add ws [].

(** [most_common(n)] is [heapq.nlargest(n, items, key=count)], which the
    library documents as [sorted(items, key=count, reverse=True)[:n]]; the
    sort is stable, so entries with equal counts keep their order. *)
Fixpoint insert_desc (x : string * Z) (l : list (string * Z))
  : list (string * Z) :=
  match l with
  | [] => [x]
  | y :: l' => if snd x <? snd y then y :: insert_desc x l' else x :: y :: l'
  end.

Definition sorted_desc (l : list (string * Z)) : list (string * Z) :=
  fold_right insert_desc [] l.

Definition most_common (n : nat) (d : dict Z) : list (string * Z) :=
  firstn n (sorted_desc d).

(** ** NewsScraper.get_top_words *)

Definition stop_words : list string :=
  ["i"; "me"; "my"; "myself"; "we"; "our"; "ours"; "ourselves"; "you"; "your";
   "yours"; "yourself"; "yourselves"; "he"; "him"; "his"; "himself"; "she";
   "her"; "hers"; "herself"; "it"; "its"; "itself"; "they"; "them"; "their";
   "theirs"; "themselves"; "what"; "which"; "who"; "whom"; "this"; "that";
   "these"; "those"; "am"; "is"; "are"; "was"; "were"; "be"; "been"; "being";
   "have"; "has"; "had"; "having"; "do"; "does"; "did"; "doing"; "a"; "an";
   "the"; "and"; "but"; "if"; "or"; "because"; "as"; "until"; "while"; "of";
   "at"; "by"; "for"; "with"; "about"; "against"; "between"; "into"; "through";
   "during"; "before"; "after"; "above"; "below"; "to"; "from"; "up"; "down";
   "in"; "out"; "on"; "off"; "over"; "under"; "again"; "further"; "then";
   "once"; "here"; "there"; "when"; "where"; "why"; "how"; "all"; "any";
   "both"; "each"; "few"; "more"; "most"; "other"; "some"; "such"; "no";
   "nor"; "not"; "only"; "own"; "same"; "so"; "than"; "too"; "very"; "can";
   "will"; "just"; "now"; "should"; "would"; "could"; "might"; "must";
   "shall"; "may"; "also"; "still"; "yet"; "ever"; "never"].

Definition string_mem (w : string) (l : list string) : bool :=
  existsb (String.eqb w) l.

(** The comprehension over [words]: every word other than [s], with its
    final ['s] dropped by [re.sub]. *)
Definition normalized_words (text_data : list string) : list string :=
  map sub_possessive
      (filter (fun word => negb (String.eqb word "s"))
              (findall (lower (join " " text_data)))).

Definition filtered_words (text_data : list string) : list string :=
  filter (fun w => negb (string_mem w stop_words) && negb (isdigit w))
         (normalized_words text_data).

Definition get_top_words (c : NewsScraperConfig) (text_data : list string)
  : list (string * Z) :=
  if negb (include_top_words c) then []
  else most_common 10 (Counter (filtered_words text_data)).

(** ** The data the scraper handles *)

(** An article is a Python dict with the keys [title], [description],
    [date] and [link], to which a successful fetch adds [content] and,
    when configured, [top_words]; [None] is an absent key. *)
Record article : Type := {
  title : string;
  description : string;
  date : string;
  link : string;
  content : option (list string);
  top_words : option (list (string * Z))
}.

(** One object of the [newsList] array of the listing response; [None] is
    a missing field. *)
Record listing_item : Type := {
  item_title : option string;
  item_lead : option string;
  item_date : option Z;
  item_link : option string
}.

(** The body of the listing response. *)
Inductive listing_body : Type :=
| NotJson
| Json (newsList : option (list listing_item)).

(** What the two CSS selections of [fetch_article_content] find in an
    article page: the text of the first [div.news-header__lead], if any,
    and the texts of the [div.text-block p] elements, in document order. *)
Record html_page : Type := {
  header_lead : option string;
  text_block_paragraphs : list string
}.

(** What [self.session] hands back for one call, after the retries of its
    adapter: either the last attempt raised, or a response came back. *)
Inductive http_reply (Body : Type) : Type :=
| Unreachable (attempts : nat) (msg : string)
| Reply (attempts : nat) (status_code : Z) (body : Body).
Arguments Unreachable {Body} attempts msg.
Arguments Reply {Body} attempts status_code body.

Definition attempts_of {Body : Type} (r : http_reply Body) : nat :=
  match r with
  | Unreachable n _ => n
  | Reply n _ _ => n
  end.

(** The places on disk the program touches. *)
Inductive path : Type :=
| OutputDir (dir : string)
| LogsDir (dir : string)
| LogFile (dir : string)
| Artifact (dir category : string) (headlines : Z) (extension : string).

Inductive csv_key : Type :=
| KTitle | KDescription | KDate | KLink | KContent
| KTopWord (i : nat) | KTopWordCount (i : nat).

Inductive csv_value : Type :=
| VStr (s : string)
| VInt (n : Z).

Definition csv_row : Type := list (csv_key * csv_value).

Inductive stdout_line : Type :=
| ProgressLine (progress total : nat)
| EmptyLine.

(** The observable history of a run, oldest event first. *)
Inductive event : Type :=
| EvMkdir (p : path)
| EvOpenLog (p : path)
| EvIdentity (user_agent : string)
| EvSleep (seconds : Q)
| EvGet (url : string) (user_agent : option string) (attempts : nat)
| EvPost (url : string) (user_agent : string) (sectionId limit : Z)
         (attempts : nat)
| EvWriteJson (p : path) (articles : list article)
| EvWriteCsv (p : path) (fieldnames : list csv_key) (rows : list csv_row)
| EvStdout (l : stdout_line).

Inductive level : Type := INFO | ERROR.

Inductive message : Type :=
| FetchingNewsList (category : string)
| NetworkErrorFetching (url : string) (e : exn)
| ErrorProcessingLink (url : string) (e : exn)
| NetworkErrorNewsList (category : string) (e : exn)
| ErrorProcessingNewsList (category : string) (e : exn)
| ErrorProcessingArticle (e : exn)
| SuccessfullyProcessed (n : nat) (category : string)
| ErrorProcessingCategory (category : string) (e : exn)
| InvalidCategory (category : string)
| AllTasksFinished
| SomeTasksFailed.

Definition log_record : Type := (level * message)%type.

(** ** The world outside the program *)

Record World : Type := {
  (** the [n]-th draw of the random generator, as an index for
      [random.choice] and as the value of [random.random()] in [0, 1) *)
  random_index : nat -> nat;
  random_unit : nat -> Q;
  (** which of the threads that can move is run at the [n]-th decision *)
  scheduler : nat -> nat;
  (** the listing endpoint, by [sectionId] and [limit] *)
  categoryNewsList : Z -> Z -> http_reply listing_body;
  (** an article page, by its address *)
  page : string -> http_reply html_page;
  (** [str(datetime.datetime.fromtimestamp(t))] in the local time zone *)
  fromtimestamp : Z -> string;
  (** whether creating or opening this path succeeds *)
  fs_ok : path -> bool;
  (** the list [_generate_user_agents] builds from the two version
      look-ups and its weighted draws *)
  generated_user_agents : list string
}.

(** ** class NewsScraper: the object and its monad *)

Record scraper : Type := {
  config : NewsScraperConfig;
  usage_counts : dict Z;
  errors_occurred : bool;
  logged : list log_record;
  history : list event;
  ticks : nat
}.

Definition M (A : Type) : Type := scraper -> result A * scraper.

Definition ret {A : Type} (a : A) : M A := fun s => (inr a, s).

Definition raise {A : Type} (e : exn) : M A := fun s => (inl e, s).

Definition bind {A B : Type} (m : M A) (k : A -> M B) : M B :=
  fun s =>
    match m s with
    | (inr a, s') => k a s'
    | (inl e, s') => (inl e, s')
    end.

Notation "x <- m ;; k" := (bind m (fun x => k))
  (at level 61, m at next level, right associativity).
Notation "m ;;; k" := (bind m (fun _ => k))
  (at level 61, right associativity).

(** [try: body except Exception as e: handler(e)] *)
Definition try_except {A : Type} (body : M A) (handler : exn -> M A) : M A :=
  fun s =>
    match body s with
    | (inr a, s') => (inr a, s')
    | (inl e, s') => handler e s'
    end.

Definition lift {A : Type} (r : result A) : M A := fun s => (r, s).

Definition get_config : M NewsScraperConfig := fun s => (inr (config s), s).

Definition with_usage_counts (u : dict Z) (s : scraper) : scraper :=
  {| config := config s; usage_counts := u;
     errors_occurred := errors_occurred s; logged := logged s;
     history := history s; ticks := ticks s |}.

Definition with_errors_occurred (b : bool) (s : scraper) : scraper :=
  {| config := config s; usage_counts := usage_counts s;
     errors_occurred := b; logged := logged s;
     history := history s; ticks := ticks s |}.

Definition with_logged (l : list log_record) (s : scraper) : scraper :=
  {| config := config s; usage_counts := usage_counts s;
     errors_occurred := errors_occurred s; logged := l;
     history := history s; ticks := ticks s |}.

Definition with_history (h : list event) (s : scraper) : scraper :=
  {| config := config s; usage_counts := usage_counts s;
     errors_occurred := errors_occurred s; logged := logged s;
     history := h; ticks := ticks s |}.

Definition with_ticks (n : nat) (s : scraper) : scraper :=
  {| config := config s; usage_counts := usage_counts s;
     errors_occurred := errors_occurred s; logged := logged s;
     history := history s; ticks := n |}.

(** [self.errors_occurred = True]: the only assignment to the flag after
    the constructor. *)
Definition set_errors_occurred : M unit :=
  fun s => (inr tt, with_errors_occurred true s).

Definition logger_info (m : message) : M unit :=
  fun s => (inr tt, with_logged (logged s ++ [(INFO, m)]) s).

Definition logger_error (m : message) : M unit :=
  fun s => (inr tt, with_logged (logged s ++ [(ERROR, m)]) s).

Definition emit (e : event) : M unit :=
  fun s => (inr tt, with_history (history s ++ [e]) s).

(** Read an oracle at the current tick and advance the tick. *)
Definition consult {A : Type} (oracle : nat -> A) : M A :=
  fun s => (inr (oracle (ticks s)), with_ticks (S (ticks s)) s).

Definition CATEGORY_MAP : dict Z :=
  [("politics", 4954); ("world", 4844); ("economy", 4845);
   ("defense", 4953); ("science", 4957); ("emergencies", 4992);
   ("society", 4956); ("pressreview", 4981); ("sports", 4869)].

Definition listing_url : string := "https://tass.com/userApi/categoryNewsList".
Definition chrome_versions_url : string :=
  "https://versionhistory.googleapis.com/v1/chrome/platforms/win/channels/stable/versions".
Definition firefox_versions_url : string :=
  "https://product-details.mozilla.org/1.0/firefox_versions.json".

(** [response.raise_for_status()]: a 4xx or 5xx status raises
    [HTTPError], a [RequestException]. *)
Definition raise_for_status {Body : Type} (status_code : Z) (body : Body)
  : M Body :=
  if (400 <=? status_code) && (status_code <? 600)
  then raise (RequestException "HTTPError")
  else ret body.

(** The text blocks of a page: [header_lead.text.strip()] if the lead is
    there, then [p.text.strip()] for every paragraph. *)
Definition extract_contents (p : html_page) : list string :=
  match header_lead p with
  | Some t => [strip t]
  | None => []
  end ++ map strip (text_block_paragraphs p).

(** [f"https://tass.com{item['link']}"] *)
Definition locator (item_link : string) : string :=
  ("https://tass.com" ++ item_link)%string.

Definition csv_key_eqb (a b : csv_key) : bool :=
  match a, b with
  | KTitle, KTitle | KDescription, KDescription | KDate, KDate
  | KLink, KLink | KContent, KContent => true
  | KTopWord i, KTopWord j => Nat.eqb i j
  | KTopWordCount i, KTopWordCount j => Nat.eqb i j
  | _, _ => false
  end.

(** [for i, word_info in enumerate(article['top_words'], i)] *)
Fixpoint top_word_fields (i : nat) (tw : list (string * Z)) : csv_row :=
  match tw with
  | [] => []
  | (w, n) :: rest =>
      (KTopWord i, VStr w) :: (KTopWordCount i, VInt n)
      :: top_word_fields (S i) rest
  end.

Definition flat_article (c : NewsScraperConfig) (a : article)
  : result csv_row :=
  match content a with
  | None => inl (KeyError "content")
  | Some paragraphs =>
      inr ([(KTitle, VStr (title a)); (KDescription, VStr (description a));
            (KDate, VStr (date a)); (KLink, VStr (link a));
            (KContent, VStr (join " " paragraphs))]
           ++ match include_top_words c, top_words a with
              | true, Some tw => top_word_fields 1 tw
              | _, _ => []
              end)
  end.

Fixpoint flatten_all (c : NewsScraperConfig) (articles : list article)
  : result (list csv_row) :=
  match articles with
  | [] => inr []
  | a :: rest =>
      match flat_article c a with
      | inl e => inl e
      | inr row =>
          match flatten_all c rest with
          | inl e => inl e
          | inr rows => inr (row :: rows)
          end
      end
  end.

(** [csv.DictWriter] refuses a row with a key outside [fieldnames]. *)
Definition row_fits (fieldnames : list csv_key) (row : csv_row) : bool :=
  forallb (fun kv => existsb (csv_key_eqb (fst kv)) fieldnames) row.

(** The rows [writerows] writes before it meets one that does not fit. *)
Fixpoint rows_written (fieldnames : list csv_key) (rows : list csv_row)
  : list csv_row :=
  match rows with
  | [] => []
  | r :: rest =>
      if row_fits fieldnames r then r :: rows_written fieldnames rest else []
  end.

(** The state of the worker pool of [process_category].  Task [k] is the
    call [fetch_article_content(news_list[k])] behind the [k]-th future;
    [cursor] is the position of the [for] loop over [future_to_article];
    [completed] lists the tasks in the order they finished. *)
Inductive status : Type :=
| Queued
| Running
| Done (outcome : result article).

Record pool : Type := {
  tasks : list (article * status);
  cursor : nat;
  processed_articles : list article;
  completed : list nat
}.

Inductive action : Type :=
| Start (k : nat)
| Complete (k : nat)
| Collect (k : nat).

Definition is_queued (t : article * status) : bool :=
  match snd t with Queued => true | _ => false end.
Definition is_running (t : article * status) : bool :=
  match snd t with Running => true | _ => false end.
Definition is_done (t : article * status) : bool :=
  match snd t with Done _ => true | _ => false end.

(** Positions, counted from [i], of the tasks that satisfy [f]. *)
Fixpoint positions (f : article * status -> bool) (i : nat)
         (ts : list (article * status)) : list nat :=
  match ts with
  | [] => []
  | t :: rest =>
      if f t then i :: positions f (S i) rest else positions f (S i) rest
  end.

Fixpoint set_status (k : nat) (st : status) (ts : list (article * status))
  : list (article * status) :=
  match ts, k with
  | [], _ => []
  | (a, _) :: rest, O => (a, st) :: rest
  | t :: rest, S k' => t :: set_status k' st rest
  end.

(** What can happen next: an idle worker takes the oldest queued task (the
    executor's queue is first-in first-out, and at most [max_workers]
    tasks run at a time); a running task finishes; the main thread, blocked
    in [future.result()] on the future at [cursor], gets its result. *)
Definition enabled (workers : Z) (p : pool) : list action :=
  match positions is_queued 0 (tasks p) with
  | k :: _ =>
      if Z.of_nat (length (positions is_running 0 (tasks p))) <? workers
      then [Start k] else []
  | [] => []
  end
  ++ map Complete (positions is_running 0 (tasks p))
  ++ match nth_error (tasks p) (cursor p) with
     | Some (_, Done _) => [Collect (cursor p)]
     | _ => []
     end.

Definition initial_pool (news_list : list article) : pool :=
  {| tasks := map (fun a => (a, Queued)) news_list;
     cursor := 0;
     processed_articles := [];
     completed := [] |}.

Section NewsScraper.

Variable W : World.

(** [self.user_agent_rotator.get_next_user_agent()] as a method of the
    scraper: the draw is the next one of the random generator. *)
Definition next_user_agent : M string :=
  fun s =>
    match get_next_user_agent (random_index W (ticks s)) (usage_counts s) with
    | inl e => (inl e, s)
    | inr (ua, counts) =>
        (inr ua,
         with_ticks (S (ticks s))
           (with_history (history s ++ [EvIdentity ua])
              (with_usage_counts counts s)))
    end.

(** [random.uniform(a, b)] is [a + (b - a) * random()]. *)
Definition random_uniform (a b : Q) : M Q :=
  u <- consult (random_unit W) ;;
  ret (a + (b - a) * u)%Q.

(** [time.sleep(d)] raises [ValueError] on a negative [d]. *)
Definition time_sleep (d : Q) : M unit :=
  if Qle_bool 0 d then emit (EvSleep d)
  else raise (ValueError "sleep length must be non-negative").

Definition session_get (url user_agent : string) : M html_page :=
  let r := page W url in
  emit (EvGet url (Some user_agent) (attempts_of r)) ;;;
  match r with
  | Unreachable _ msg => raise (RequestException msg)
  | Reply _ status_code body => raise_for_status status_code body
  end.

Definition session_post (user_agent : string) (sectionId limit : Z)
  : M listing_body :=
  let r := categoryNewsList W sectionId limit in
  emit (EvPost listing_url user_agent sectionId limit (attempts_of r)) ;;;
  match r with
  | Unreachable _ msg => raise (RequestException msg)
  | Reply _ status_code body => raise_for_status status_code body
  end.

Definition fetch_article_content (a : article) : M article :=
  user_agent <- next_user_agent ;;
  c <- get_config ;;
  delay <- random_uniform (min_delay c) (max_delay c) ;;
  time_sleep delay ;;;
  try_except
    (body <- session_get (link a) user_agent ;;
     match extract_contents body with
     | [] => raise (ValueError "No content found in article")
     | p :: ps =>
         let contents := p :: ps in
         ret {| title := title a;
                description := description a;
                date := date a;
                link := link a;
                content := Some contents;
                top_words := if include_top_words c
                             then Some (get_top_words c contents)
                             else top_words a |}
     end)
    (fun e =>
       logger_error (if is_request_exception e
                     then NetworkErrorFetching (link a) e
                     else ErrorProcessingLink (link a) e) ;;;
       set_errors_occurred ;;;
       raise e).

(** One dict of the comprehension in [get_news_list]; the keys are read in
    the order [title], [lead], [date], [link], and a missing one raises
    [KeyError]. *)
Definition item_to_article (it : listing_item) : result article :=
  match item_title it with
  | None => inl (KeyError "title")
  | Some t =>
      match item_lead it with
      | None => inl (KeyError "lead")
      | Some l =>
          match item_date it with
          | None => inl (KeyError "date")
          | Some d =>
              match item_link it with
              | None => inl (KeyError "link")
              | Some lk =>
                  inr {| title := t;
                         description := l;
                         date := fromtimestamp W d;
                         link := locator lk;
                         content := None;
                         top_words := None |}
              end
          end
      end
  end.

Fixpoint items_to_articles (items : list listing_item)
  : result (list article) :=
  match items with
  | [] => inr []
  | it :: rest =>
      match item_to_article it with
      | inl e => inl e
      | inr a =>
          match items_to_articles rest with
          | inl e => inl e
          | inr l => inr (a :: l)
          end
      end
  end.

Definition get_news_list (category : string) : M (list article) :=
  logger_info (FetchingNewsList category) ;;;
  user_agent <- next_user_agent ;;
  c <- get_config ;;
  sectionId <- lift (match dict_get CATEGORY_MAP category with
                     | Some n => inr n
                     | None => inl (KeyError category)
                     end) ;;
  try_except
    (body <- session_post user_agent sectionId (headlines_per_category c) ;;
     match body with
     | NotJson => raise (RequestException "JSONDecodeError")
     | Json None => raise (KeyError "newsList")
     | Json (Some news_list) => lift (items_to_articles news_list)
     end)
    (fun e =>
       logger_error (if is_request_exception e
                     then NetworkErrorNewsList category e
                     else ErrorProcessingNewsList category e) ;;;
       set_errors_occurred ;;;
       raise e).

Definition save_to_csv (articles : list article) (output_path : path)
  : M unit :=
  match articles with
  | [] => ret tt
  | _ :: _ =>
      c <- get_config ;;
      flattened_articles <- lift (flatten_all c articles) ;;
      if fs_ok W output_path then
        let fieldnames :=
          match flattened_articles with
          | [] => []
          | first :: _ => map fst first
          end in
        emit (EvWriteCsv output_path fieldnames
                (rows_written fieldnames flattened_articles)) ;;;
        if forallb (row_fits fieldnames) flattened_articles then ret tt
        else raise (ValueError "dict contains fields not in fieldnames")
      else raise (OSError "open")
  end.

Definition json_dump (articles : list article) (output_path : path)
  : M unit :=
  if fs_ok W output_path then emit (EvWriteJson output_path articles)
  else raise (OSError "open").

(** One task of the pool run to its end: the exception, if any, is stored
    in the future instead of being raised.  The pool is modelled at the
    grain of whole tasks: what a call of [fetch_article_content] does to
    the shared scraper happens in one step, at the moment the task
    finishes, and tasks may finish in any order the scheduler allows. *)
Definition run_task (a : article) : M (result article) :=
  fun s => let (r, s') := fetch_article_content a s in (inr r, s').

(** The effect of one decision.  [Collect] is one round of
    [for i, future in enumerate(future_to_article, 1)]: the dict is walked
    in insertion order, that is in the order of submission, and
    [future.result()] returns the article or raises the exception of the
    task. *)
Definition perform (act : action) (p : pool) : M pool :=
  match act with
  | Start k =>
      ret {| tasks := set_status k Running (tasks p);
             cursor := cursor p;
             processed_articles := processed_articles p;
             completed := completed p |}
  | Complete k =>
      match nth_error (tasks p) k with
      | Some (a, _) =>
          outcome <- run_task a ;;
          ret {| tasks := set_status k (Done outcome) (tasks p);
                 cursor := cursor p;
                 processed_articles := processed_articles p;
                 completed := completed p ++ [k] |}
      | None => ret p
      end
  | Collect k =>
      match nth_error (tasks p) k with
      | Some (_, Done (inr a)) =>
          emit (EvStdout (ProgressLine (S k) (length (tasks p)))) ;;;
          ret {| tasks := tasks p;
                 cursor := S k;
                 processed_articles := processed_articles p ++ [a];
                 completed := completed p |}
      | Some (_, Done (inl e)) =>
          logger_error (ErrorProcessingArticle e) ;;;
          set_errors_occurred ;;;
          ret {| tasks := tasks p;
                 cursor := S k;
                 processed_articles := processed_articles p;
                 completed := completed p |}
      | _ => ret p
      end
  end.

(** One scheduling decision. *)
Definition pool_step (workers : Z) (p : pool) : M pool :=
  match enabled workers p with
  | [] => ret p
  | a :: rest =>
      n <- consult (scheduler W) ;;
      perform (nth (n mod length (a :: rest)) (a :: rest) a) p
  end.

Fixpoint pool_run (fuel : nat) (workers : Z) (p : pool) : M pool :=
  match fuel with
  | O => ret p
  | S fuel' => p' <- pool_step workers p ;; pool_run fuel' workers p'
  end.

(** The [with ThreadPoolExecutor(...)] block: every task is started once,
    finishes once and is collected once, so three decisions per task
    drain the pool. *)
Definition run_pool (workers : Z) (news_list : list article) : M pool :=
  if workers <=? 0
  then raise (ValueError "max_workers must be greater than 0")
  else pool_run (3 * length news_list) workers (initial_pool news_list).

Definition process_category (category : string) : M unit :=
  try_except
    (news_list <- get_news_list category ;;
     c <- get_config ;;
     p <- run_pool (max_workers c) news_list ;;
     let extension := if use_csv c then "csv" else "json" in
     let output_path :=
       Artifact (output_dir c) category (headlines_per_category c) extension in
     (if use_csv c
      then save_to_csv (processed_articles p) output_path
      else json_dump (processed_articles p) output_path) ;;;
     logger_info
       (SuccessfullyProcessed (length (processed_articles p)) category))
    (fun e =>
       logger_error (ErrorProcessingCategory category e) ;;;
       set_errors_occurred).

Fixpoint for_categories (cats : list string) : M unit :=
  match cats with
  | [] => ret tt
  | category :: rest =>
      (if dict_mem CATEGORY_MAP category
       then process_category category ;;; emit (EvStdout EmptyLine)
       else logger_error (InvalidCategory category) ;;; set_errors_occurred) ;;;
      for_categories rest
  end.

Definition report : M unit :=
  fun s =>
    if negb (errors_occurred s) then logger_info AllTasksFinished s
    else logger_error SomeTasksFailed s.

Definition run : M unit :=
  c <- get_config ;;
  lift (validate c) ;;;
  for_categories (categories c) ;;;
  report.

Definition mkdir (p : path) : M unit :=
  if fs_ok W p then emit (EvMkdir p) else raise (OSError "mkdir").

Definition open_log (p : path) : M unit :=
  if fs_ok W p then emit (EvOpenLog p) else raise (OSError "open").

(** [NewsScraper.__init__]: the output and log directories, the log file
    of [_setup_logger], the session (no I/O), then [UserAgentRotator()],
    whose two version look-ups are plain [requests.get] calls that fall
    back to built-in lists when they fail. *)
Definition __init__ : M unit :=
  c <- get_config ;;
  mkdir (OutputDir (output_dir c)) ;;;
  mkdir (LogsDir (output_dir c)) ;;;
  open_log (LogFile (output_dir c)) ;;;
  emit (EvGet chrome_versions_url None 1) ;;;
  emit (EvGet firefox_versions_url None 1) ;;;
  fun s =>
    (inr tt,
     with_errors_occurred false
       (with_usage_counts (init_usage_counts (generated_user_agents W)) s)).

End NewsScraper.

(** The process before the constructor has run. *)
Definition fresh (c : NewsScraperConfig) : scraper :=
  {| config := c; usage_counts := []; errors_occurred := false;
     logged := []; history := []; ticks := 0 |}.

(** [main], from the parsed configuration on: the exit code ([None] when
    [main] returns normally) and the final state of the process. *)
Definition main (W : World) (c : NewsScraperConfig) : option Z * scraper :=
  match (__init__ W ;;; run W) (fresh c) with
  | (inr _, s) => (None, s)
  | (inl _, s) => (Some 1, s)
  end.

(** ** ProgressBar *)

Module ProgressBar.

(** The two attributes of a bar that shape what it draws.  The start time
    feeds only the estimate of the remaining time, which is left out. *)
Record t : Type := { total : Z; length : Z }.

(** [ProgressBar(total)], with [length=50] by default. *)
Definition __init__ (total : Z) : t := {| total := total; length := 50 |}.

(** What [_format_bar] draws between the brackets: so many [#], then so
    many blanks.  Both divisions by [self.total] raise [ZeroDivisionError]
    when the total is 0, which is [None] here; [//] on integers is floor
    division, and a string times a negative number is the empty string.
    The percentage, which is computed in floating point, and the estimate
    of the remaining time are left out. *)
Definition _format_bar (self : t) (progress : Z) : option (nat * nat) :=
  if total self =? 0 then None
  else
    let filled_length := length self * progress / total self in
    Some (Z.to_nat filled_length, Z.to_nat (length self - filled_length)).

(** [update]: the bar, and whether a line break is written after it. *)
Definition update (self : t) (progress : Z) : option (nat * nat * bool) :=
  match _format_bar self progress with
  | None => None
  | Some (hashes, blanks) => Some (hashes, blanks, total self <=? progress)
  end.

End ProgressBar.

(** ** UserAgentRotator: building the pool of identities *)

(** [s.split('.')[0]]: what stands before the first dot. *)
Fixpoint before_dot (s : string) : string :=
  match s with
  | EmptyString => EmptyString
  | String c s' =>
      if Ascii.eqb c "."%char then EmptyString else String c (before_dot s')
  end.

(** [str(n)] of an integer, as an f-string prints it. *)
Definition str_of_int (n : Z) : string :=
  NilZero.string_of_int (Z.to_int n).

Definition fallback_chrome_versions : list string :=
  ["131.0.0.0"; "131.0.0.0"; "131.0.0.0"; "131.0.0.0"; "131.0.0.0";
   "130.0.0.0"; "130.0.0.0"; "130.0.0.0"; "130.0.0.0"; "129.0.0.0";
   "131.0.0.0"; "131.0.0.0"; "131.0.0.0"; "131.0.0.0"; "131.0.0.0";
   "130.0.0.0"; "130.0.0.0"; "130.0.0.0"; "130.0.0.0"; "129.0.0.0"].

Definition fallback_firefox_versions : list string :=
  ["133.0"; "133.0"; "133.0"; "133.0"; "133.0";
   "133.0"; "133.0"; "133.0"; "133.0"; "133.0";
   "132.0"; "132.0"; "132.0"; "132.0"; "132.0";
   "132.0"; "132.0"; "132.0"; "131.0"; "131.0"].

(** The reply of the Chrome version service as [_get_chrome_versions]
    reads it: [None] when the request, the decoding of the JSON or the
    look-up of [versions] raises; otherwise, for every entry of that list,
    the string under [version], or [None] where there is none. *)
Definition chrome_reply : Type := option (list (option string)).

(** [range(2, 30, 3)] *)
Definition chrome_indices : list nat :=
  [2; 5; 8; 11; 14; 17; 20; 23; 26; 29]%nat.

(** The loop of [_get_chrome_versions]; [None] when an index is out of
    range or an entry has no version, which the [except] clause catches. *)
Fixpoint chrome_loop (data : list (option string)) (indices : list nat)
  : option (list string) :=
  match indices with
  | [] => Some []
  | i :: rest =>
      match nth_error data i with
      | Some (Some version) =>
          match chrome_loop data rest with
          | Some versions =>
              Some ((before_dot version ++ ".0.0.0")%string :: versions)
          | None => None
          end
      | _ => None
      end
  end.

Definition _get_chrome_versions (reply : chrome_reply) : list string :=
  match reply with
  | Some data =>
      match chrome_loop data chrome_indices with
      | Some versions => versions ++ versions
      | None => fallback_chrome_versions
      end
  | None => fallback_chrome_versions
  end.

(** [_get_firefox_versions], given the integer that [int(...)] makes of
    the major part of [LATEST_FIREFOX_VERSION], or [None] when the request,
    the decoding, the look-up or the conversion raises. *)
Definition _get_firefox_versions (current_major : option Z) : list string :=
  match current_major with
  | Some current_major =>
      repeat (str_of_int current_major ++ ".0")%string 10
      ++ repeat (str_of_int (current_major - 1) ++ ".0")%string 8
      ++ repeat (str_of_int (current_major - 2) ++ ".0")%string 2
  | None => fallback_firefox_versions
  end.

Inductive os_type : Type := windows | macos | linux.

Inductive architecture : Type := Intel | AppleSilicon.

(** The platform of an agent; [mac_version] is [chrome_version] or
    [firefox_version] of the [macos] entry of [os_configs]. *)
Definition platform (mac_version : string) (os : os_type)
           (arch : architecture) : string :=
  match os with
  | windows => "Windows NT 10.0; Win64; x64"
  | macos =>
      ("Macintosh; "
       ++ match arch with
          | Intel => "Intel Mac OS X"
          | AppleSilicon => "Apple Silicon Mac OS X"
          end ++ " " ++ mac_version)%string
  | linux => "X11; Linux x86_64"
  end.

Definition chrome_agent (platform version : string) : string :=
  ("Mozilla/5.0 (" ++ platform
   ++ ") AppleWebKit/537.36 (KHTML, like Gecko) Chrome/" ++ version
   ++ " Safari/537.36")%string.

Definition firefox_agent (platform version : string) : string :=
  ("Mozilla/5.0 (" ++ platform ++ "; rv:" ++ version
   ++ ") Gecko/20100101 Firefox/" ++ version)%string.

(** One of the two loops of [_generate_user_agents].  [draws i] is what
    the weighted draws give for the [i]-th agent: its operating system
    and, used only for macOS, the architecture. *)
Fixpoint agents (agent : string -> string -> string) (mac_version : string)
         (draws : nat -> os_type * architecture) (i : nat)
         (versions : list string) : list string :=
  match versions with
  | [] => []
  | version :: rest =>
      let (os, arch) := draws i in
      agent (platform mac_version os arch) version
      :: agents agent mac_version draws (S i) rest
  end.

Definition _generate_user_agents (draws : nat -> os_type * architecture)
           (chrome_versions firefox_versions : list string) : list string :=
  agents chrome_agent "10_15_7" draws 0 chrome_versions
  ++ agents firefox_agent "10.15" draws (length chrome_versions)
            firefox_versions.

(** [self.user_agents] as [UserAgentRotator.__init__] builds it. *)
Definition user_agents (draws : nat -> os_type * architecture)
           (chrome : chrome_reply) (firefox : option Z) : list string :=
  _generate_user_agents draws (_get_chrome_versions chrome)
                        (_get_firefox_versions firefox).

(** * The vocabulary of the properties *)

Definition total (xs : list Z) : Z := fold_right Z.add 0 xs.

(** The state a rotator can be in: some identity, no identity twice, and
    no two counters more than one apart. *)
Record balanced (counts : dict Z) : Prop := {
  bal_nonempty : counts <> [];
  bal_nodup : NoDup (dict_keys counts);
  bal_spread : forall a b,
      In a (dict_values counts) -> In b (dict_values counts) -> a <= b + 1
}.

(** The events a call adds to the history. *)
Definition new_events {A : Type} (m : M A) (s : scraper) : list event :=
  skipn (length (history s)) (history (snd (m s))).


(** Requests to the news site, and writes of an output artifact. *)
Definition is_request (e : event) : bool :=
  match e with
  | EvGet _ (Some _) _ | EvPost _ _ _ _ _ => true
  | _ => false
  end.

Definition is_sleep (e : event) : bool :=
  match e with
  | EvSleep _ => true
  | _ => false
  end.

Definition is_write (e : event) : bool :=
  match e with
  | EvWriteJson _ _ | EvWriteCsv _ _ _ => true
  | _ => false
  end.

Fixpoint starts_with (pre s : string) : bool :=
  match pre, s with
  | EmptyString, _ => true
  | String a pre', String b s' => Ascii.eqb a b && starts_with pre' s'
  | String _ _, EmptyString => false
  end.

Definition is_absolute (url : string) : bool :=
  starts_with "https://" url || starts_with "http://" url.

(** The locator the specification asks for: a link that is already absolute
    stays as it is, any other link is qualified with the site. *)
Definition qualified_address (item_link : string) : string :=
  if is_absolute item_link then item_link
  else ("https://tass.com" ++ item_link)%string.

(** The host part of an absolute address: what stands between [://] and
    the next [/] or [:]. *)
Fixpoint until_delimiter (s : string) : string :=
  match s with
  | EmptyString => EmptyString
  | String c s' =>
      if Ascii.eqb c "/"%char || Ascii.eqb c ":"%char then EmptyString
      else String c (until_delimiter s')
  end.

Definition host_of (url : string) : option string :=
  if starts_with "https://" url
  then Some (until_delimiter (substring 8 (String.length url - 8) url))
  else if starts_with "http://" url
       then Some (until_delimiter (substring 7 (String.length url - 7) url))
       else None.

(** C3 as the specification states it: a configuration that [validate]
    rejects stops the program before any I/O. *)
Definition config_error_before_any_io (W : World) (c : NewsScraperConfig)
  : Prop :=
  forall e, validate c = inl e -> history (snd (main W c)) = [].

Definition is_error (r : log_record) : bool :=
  match fst r with
  | ERROR => true
  | INFO => false
  end.

Definition is_article_error (r : log_record) : bool :=
  match r with
  | (ERROR, ErrorProcessingArticle _) => true
  | _ => false
  end.

(** The number of futures whose result was an exception, as the log of
    [process_category] records them. *)
Definition article_errors (l : list log_record) : nat :=
  length (filter is_article_error l).

Definition any_event (e : event) : bool := true.

Definition any_record (r : log_record) : bool := true.

Definition not_write (e : event) : bool := negb (is_write e).

Definition not_article_error (r : log_record) : bool :=
  negb (is_article_error r).

(** What the futures hold once they are done, in the order the tasks were
    submitted: the articles returned, and the number of exceptions. *)
Fixpoint successes (ts : list (article * status)) : list article :=
  match ts with
  | [] => []
  | (_, Done (inr a)) :: rest => a :: successes rest
  | _ :: rest => successes rest
  end.

Fixpoint failures (ts : list (article * status)) : nat :=
  match ts with
  | [] => 0
  | (_, Done (inl _)) :: rest => S (failures rest)
  | _ :: rest => failures rest
  end.

(** The scheduling decisions a task still needs: to be started, to
    finish. *)
Definition weight (t : article * status) : nat :=
  match snd t with
  | Queued => 2
  | Running => 1
  | Done _ => 0
  end.

(** The decisions the pool still needs, the collecting of every future
    included. *)
Definition remaining (p : pool) : nat :=
  list_sum (map weight (tasks p)) + (length (tasks p) - cursor p).

(** The tasks at the given positions. *)
Definition tasks_at (p : pool) (ks : list nat) : list (article * status) :=
  flat_map (fun k => match nth_error (tasks p) k with
                     | Some t => [t]
                     | None => []
                     end) ks.

(** C5 as the specification states it: the articles collected are the
    successful results in the order in which the tasks finished. *)
Definition collected_in_completion_order (p : pool) : Prop :=
  processed_articles p = successes (tasks_at p (completed p)).

(** The page behind an address cannot give an article: the request fails,
    or the status is an error, or there is no text block. *)
Definition page_fails (W : World) (url : string) : bool :=
  match page W url with
  | Unreachable _ _ => true
  | Reply _ code body =>
      ((400 <=? code) && (code <? 600))
      || match extract_contents body with
         | [] => true
         | _ :: _ => false
         end
  end.

Definition artifact_path (c : NewsScraperConfig) (category : string) : path :=
  Artifact (output_dir c) category (headlines_per_category c)
           (if use_csv c then "csv" else "json").





(** [x] stands somewhere in [l] with [y] somewhere after it. *)
Definition precedes {A : Type} (x y : A) (l : list A) : Prop :=
  exists l1 l2, l = l1 ++ x :: l2 /\ In y l2.





(** ** Words for the further properties *)

(** A request for the page of an article. *)
Definition is_article_request (e : event) : bool :=
  match e with
  | EvGet _ (Some _) _ => true
  | _ => false
  end.

Definition is_post (e : event) : bool :=
  match e with
  | EvPost _ _ _ _ _ => true
  | _ => false
  end.

Definition is_identity (e : event) : bool :=
  match e with
  | EvIdentity _ => true
  | _ => false
  end.


(** The message under which the [except] clauses of [get_news_list] and
    of [fetch_article_content] log an exception. *)
Definition listing_error (category : string) (e : exn) : message :=
  if is_request_exception e then NetworkErrorNewsList category e
  else ErrorProcessingNewsList category e.

Definition fetch_error (url : string) (e : exn) : message :=
  if is_request_exception e then NetworkErrorFetching url e
  else ErrorProcessingLink url e.

(** What the [try] block of [get_news_list] makes of the reply to its
    request, and what the [try] block of [fetch_article_content] makes of
    the reply to its own. *)
Definition listing_result (W : World) (r : http_reply listing_body)
  : result (list article) :=
  match r with
  | Unreachable _ msg => inl (RequestException msg)
  | Reply _ code body =>
      if (400 <=? code) && (code <? 600)
      then inl (RequestException "HTTPError")
      else match body with
           | NotJson => inl (RequestException "JSONDecodeError")
           | Json None => inl (KeyError "newsList")
           | Json (Some items) => items_to_articles W items
           end
  end.

Definition page_result (c : NewsScraperConfig) (a : article)
           (r : http_reply html_page) : result article :=
  match r with
  | Unreachable _ msg => inl (RequestException msg)
  | Reply _ code body =>
      if (400 <=? code) && (code <? 600)
      then inl (RequestException "HTTPError")
      else match extract_contents body with
           | [] => inl (ValueError "No content found in article")
           | p :: ps =>
               inr {| title := title a;
                      description := description a;
                      date := date a;
                      link := link a;
                      content := Some (p :: ps);
                      top_words := if include_top_words c
                                   then Some (get_top_words c (p :: ps))
                                   else top_words a |}
           end
  end.

(** The scraper after [error] has been logged and the failure flag set. *)
Definition failed (m : message) (s : scraper) : scraper :=
  with_errors_occurred true (with_logged (logged s ++ [(ERROR, m)]) s).

(** The scraper after the rotator has given [ua] and moved to [counts]. *)
Definition identified (ua : string) (counts : dict Z) (s : scraper)
  : scraper :=
  with_ticks (S (ticks s))
    (with_history (history s ++ [EvIdentity ua]) (with_usage_counts counts s)).

(** The rotator of [s'] is the rotator of [s] after some calls: if the
    counters of [s] are balanced, so are those of [s'], over the same
    identities, and no count was taken back. *)
Definition rotated (s s' : scraper) : Prop :=
  balanced (usage_counts s) ->
  balanced (usage_counts s') /\
  dict_keys (usage_counts s') = dict_keys (usage_counts s) /\
  total (dict_values (usage_counts s))
  <= total (dict_values (usage_counts s')).

(** An article that carries at least one text block. *)
Definition has_content (a : article) : Prop :=
  exists p ps, content a = Some (p :: ps).

(** The number of top words [save_to_csv] writes for an article. *)
Definition width (c : NewsScraperConfig) (a : article) : nat :=
  match include_top_words c, top_words a with
  | true, Some tw => length tw
  | _, _ => 0
  end.

(** The columns [top_word_i], [top_word_i_count] for [n] top words counted
    from [i]. *)
Fixpoint top_word_keys (i n : nat) : list csv_key :=
  match n with
  | O => []
  | S n' => KTopWord i :: KTopWordCount i :: top_word_keys (S i) n'
  end.

Definition base_keys : list csv_key :=
  [KTitle; KDescription; KDate; KLink; KContent].

(** The longest prefix of [l] whose elements all satisfy [f]. *)
Fixpoint leading {A : Type} (f : A -> bool) (l : list A) : list A :=
  match l with
  | [] => []
  | x :: rest => if f x then x :: leading f rest else []
  end.

(** The row of an article that has its content. *)
Definition row_of (c : NewsScraperConfig) (a : article) : csv_row :=
  match flat_article c a with
  | inr row => row
  | inl _ => []
  end.

(** A progress line stands for [progress_bar.update(progress)] on a bar of
    the given total; it is in range when the progress counts from 1 up to
    the total. *)
Definition progress_in_range (e : event) : bool :=
  match e with
  | EvStdout (ProgressLine progress total) =>
      (1 <=? progress)%nat && (progress <=? total)%nat
  | _ => true
  end.

(** What may happen in [process_category] once the listing is there:
    progress lines in range, and no further listing request. *)
Definition after_listing (e : event) : bool :=
  progress_in_range e && negb (is_post e).

(** The listing requests among some events: the section and the limit of
    each, in the order they were sent. *)
Definition posted (evs : list event) : list (Z * Z) :=
  flat_map (fun e => match e with
                     | EvPost _ _ sectionId limit _ => [(sectionId, limit)]
                     | _ => []
                     end) evs.

(** The sections of the names that [CATEGORY_MAP] knows, in order. *)
Definition known_sections (cats : list string) : list Z :=
  flat_map (fun category => match dict_get CATEGORY_MAP category with
                            | Some sectionId => [sectionId]
                            | None => []
                            end) cats.

(** * Example worlds and scrapers *)

(** A world for the examples: the listing of politics has three items, the
    page of the second one has no text block, every other page has a lead
    and two paragraphs; the scheduler lets the second task finish first. *)
Definition example_item (n : string) : listing_item :=
  {| item_title := Some ("Title " ++ n)%string;
     item_lead := Some "Lead";
     item_date := Some 1700000000;
     item_link := Some ("/politics/" ++ n)%string |}.

Definition example_world : World :=
  {| random_index := fun n => n;
     random_unit := fun _ => (1 # 2)%Q;
     scheduler := fun n => match n with
                           | 3 => 1
                           | _ => 0
                           end%nat;
     categoryNewsList := fun sectionId limit =>
       if sectionId =? 4954
       then Reply 1 200
              (Json (Some [example_item "1"; example_item "2"; example_item "3"]))
       else Unreachable 4 "connection refused";
     page := fun url =>
       if String.eqb url "https://tass.com/politics/2"
       then Reply 1 200 {| header_lead := None; text_block_paragraphs := [] |}
       else Reply 2 200 {| header_lead := Some " A lead. ";
                           text_block_paragraphs :=
                             ["The cat sat."; "The cat ran. "] |};
     fromtimestamp := fun _ => "2023-11-14 22:13:20";
     fs_ok := fun _ => true;
     generated_user_agents := ["agent A"; "agent B"; "agent A"; "agent C"] |}.

Definition example_config : NewsScraperConfig :=
  {| headlines_per_category := 3;
     categories := ["politics"];
     max_workers := 2;
     output_dir := "news_data";
     include_top_words := true;
     min_delay := (2 # 10)%Q;
     max_delay := (1 # 1)%Q;
     max_retries := 3;
     use_csv := false |}.

(** The scraper as its constructor leaves it. *)
Definition example_scraper : scraper :=
  snd (__init__ example_world (fresh example_config)).

Definition example_article (n : string) : article :=
  {| title := ("Title " ++ n)%string;
     description := "Lead";
     date := "2023-11-14 22:13:20";
     link := ("https://tass.com/politics/" ++ n)%string;
     content := None;
     top_words := None |}.

(** A listing whose only item carries an absolute link. *)
Definition absolute_link_world : World :=
  {| random_index := random_index example_world;
     random_unit := random_unit example_world;
     scheduler := scheduler example_world;
     categoryNewsList := fun _ _ =>
       Reply 1 200
         (Json (Some [{| item_title := Some "Title";
                         item_lead := Some "Lead";
                         item_date := Some 1700000000;
                         item_link := Some "https://tass.com/politics/1" |}]));
     page := page example_world;
     fromtimestamp := fromtimestamp example_world;
     fs_ok := fs_ok example_world;
     generated_user_agents := generated_user_agents example_world |}.

Definition zero_headlines_config : NewsScraperConfig :=
  {| headlines_per_category := 0;
     categories := ["politics"];
     max_workers := 2;
     output_dir := "news_data";
     include_top_words := false;
     min_delay := (2 # 10)%Q;
     max_delay := (1 # 1)%Q;
     max_retries := 3;
     use_csv := false |}.

(** A world in which every page has text, and in which the second task of
    a pool started on the constructed scraper finishes before the first. *)
Definition good_pages_world : World :=
  {| random_index := random_index example_world;
     random_unit := random_unit example_world;
     scheduler := fun n => match n with
                           | 2 => 1
                           | _ => 0
                           end%nat;
     categoryNewsList := categoryNewsList example_world;
     page := fun url =>
       Reply 1 200 {| header_lead := Some url; text_block_paragraphs := [] |};
     fromtimestamp := fromtimestamp example_world;
     fs_ok := fs_ok example_world;
     generated_user_agents := generated_user_agents example_world |}.

(** The example with CSV output. *)
Definition csv_scraper : scraper :=
  snd (__init__ example_world
         (fresh {| headlines_per_category := 3;
                   categories := ["politics"];
                   max_workers := 2;
                   output_dir := "news_data";
                   include_top_words := true;
                   min_delay := (2 # 10)%Q;
                   max_delay := (1 # 1)%Q;
                   max_retries := 3;
                   use_csv := true |})).

(** A world in which no page has any text. *)
Definition empty_pages_world : World :=
  {| random_index := random_index example_world;
     random_unit := random_unit example_world;
     scheduler := scheduler example_world;
     categoryNewsList := categoryNewsList example_world;
     page := fun url =>
       Reply 1 200 {| header_lead := None; text_block_paragraphs := [] |};
     fromtimestamp := fromtimestamp example_world;
     fs_ok := fs_ok example_world;
     generated_user_agents := generated_user_agents example_world |}.


(** A fetched article with the given top words. *)
Definition fetched_article (n : string) (words : list (string * Z))
  : article :=
  {| title := ("Title " ++ n)%string;
     description := "Lead";
     date := "2023-11-14 22:13:20";
     link := ("https://tass.com/politics/" ++ n)%string;
     content := Some ["Some text."];
     top_words := Some words |}.

(** * Properties *)

(** ** Dictionaries, minimum, maximum *)

Lemma py_min_spec (xs : list Z) (m : Z) :
  py_min xs = Some m -> In m xs /\ forall x, In x xs -> m <= x.
Proof.
  revert m; induction xs as [|x xs IH]; intros m H; simpl in H.
  - discriminate.
  - destruct (py_min xs) as [m'|] eqn:E.
    + injection H as <-. destruct (IH m' eq_refl) as [Hin Hle]. split.
      * destruct (Z.min_spec x m') as [[_ ->]|[_ ->]]; simpl; auto.
      * intros y [<-|Hy]; [lia|]. specialize (Hle y Hy). lia.
    + injection H as <-. destruct xs; [|simpl in E; destruct (py_min xs); discriminate].
      split; [simpl; auto|]. intros y [<-|[]]; lia.
Qed.

Lemma py_max_spec (xs : list Z) (m : Z) :
  py_max xs = Some m -> In m xs /\ forall x, In x xs -> x <= m.
Proof.
  revert m; induction xs as [|x xs IH]; intros m H; simpl in H.
  - discriminate.
  - destruct (py_max xs) as [m'|] eqn:E.
    + injection H as <-. destruct (IH m' eq_refl) as [Hin Hle]. split.
      * destruct (Z.max_spec x m') as [[_ ->]|[_ ->]]; simpl; auto.
      * intros y [<-|Hy]; [lia|]. specialize (Hle y Hy). lia.
    + injection H as <-. destruct xs; [|simpl in E; destruct (py_max xs); discriminate].
      split; [simpl; auto|]. intros y [<-|[]]; lia.
Qed.

Lemma py_min_some (xs : list Z) : xs <> [] -> exists m, py_min xs = Some m.
Proof.
  destruct xs as [|x xs]; [congruence|]. intros _. simpl.
  destruct (py_min xs); eauto.
Qed.

Lemma py_max_some (xs : list Z) : xs <> [] -> exists m, py_max xs = Some m.
Proof.
  destruct xs as [|x xs]; [congruence|]. intros _. simpl.
  destruct (py_max xs); eauto.
Qed.

Lemma dict_get_in {V : Type} (d : dict V) (k : string) (v : V) :
  NoDup (dict_keys d) -> In (k, v) d -> dict_get d k = Some v.
Proof.
  induction d as [|[k' v'] d IH]; simpl; intros Hnd Hin; [contradiction|].
  inversion Hnd as [|? ? Hnotin Hnd']; subst.
  destruct Hin as [Heq|Hin].
  - injection Heq as -> ->. now rewrite String.eqb_refl.
  - destruct (String.eqb_spec k' k) as [->|Hne]; [|auto].
    exfalso. apply Hnotin. apply (in_map fst) in Hin. exact Hin.
Qed.

Lemma dict_set_keys_present {V : Type} (d : dict V) (k : string) (v w : V) :
  dict_get d k = Some w -> dict_keys (dict_set d k v) = dict_keys d.
Proof.
  induction d as [|[k' v'] d IH]; simpl; [discriminate|].
  destruct (String.eqb k' k); simpl; intros H; [reflexivity|].
  now rewrite IH.
Qed.

Lemma dict_set_values_in {V : Type} (d : dict V) (k : string) (v x : V) :
  In x (dict_values (dict_set d k v)) -> x = v \/ In x (dict_values d).
Proof.
  induction d as [|[k' v'] d IH]; simpl.
  - intros [<-|[]]; auto.
  - destruct (String.eqb k' k); simpl; intros [<-|H]; auto.
    destruct (IH H); auto.
Qed.

Lemma dict_set_nonempty {V : Type} (d : dict V) (k : string) (v : V) :
  dict_set d k v <> [].
Proof.
  destruct d as [|[k' v'] d]; simpl; [discriminate|].
  destruct (String.eqb k' k); discriminate.
Qed.

Lemma dict_set_keys_nodup {V : Type} (d : dict V) (k : string) (v : V) :
  NoDup (dict_keys d) -> NoDup (dict_keys (dict_set d k v)).
Proof.
  induction d as [|[k' v'] d IH]; simpl; intros Hnd.
  - constructor; [intros []|constructor].
  - inversion Hnd as [|? ? Hnotin Hnd']; subst.
    destruct (String.eqb_spec k' k) as [->|Hne]; simpl.
    + now constructor.
    + constructor; [|auto]. intros Hin. apply Hnotin.
      clear -Hin Hne. induction d as [|[k2 v2] d IH]; simpl in *.
      * destruct Hin as [Heq|[]]. congruence.
      * destruct (String.eqb k2 k); simpl in *; destruct Hin; auto.
Qed.

Lemma dict_set_total (d : dict Z) (k : string) (n : Z) :
  dict_get d k = Some n ->
  total (dict_values (dict_set d k (n + 1))) = total (dict_values d) + 1.
Proof.
  induction d as [|[k' v'] d IH]; simpl; [discriminate|].
  destruct (String.eqb k' k); simpl; intros H.
  - injection H as ->. lia.
  - rewrite (IH H). lia.
Qed.

(** ** UserAgentRotator: the usage counters stay balanced *)

Section Rotator.

Lemma init_usage_counts_zero (user_agents : list string) (d : dict Z) :
  NoDup (dict_keys d) -> (forall x, In x (dict_values d) -> x = 0) ->
  let d' := fold_left (fun d ua => dict_set d ua 0) user_agents d in
  NoDup (dict_keys d') /\ (forall x, In x (dict_values d') -> x = 0) /\
  (user_agents <> [] -> d' <> []).
Proof.
  revert d; induction user_agents as [|ua rest IH]; intros d Hnd Hz; simpl.
  - repeat split; auto; congruence.
  - destruct (IH (dict_set d ua 0)) as (H1 & H2 & H3).
    + now apply dict_set_keys_nodup.
    + intros x Hx. destruct (dict_set_values_in _ _ _ _ Hx); auto.
    + repeat split; auto. intros _.
      destruct rest as [|ua' rest']; [apply dict_set_nonempty|].
      apply H3. discriminate.
Qed.

Lemma init_usage_counts_balanced (user_agents : list string) :
  user_agents <> [] -> balanced (init_usage_counts user_agents).
Proof.
  intros Hne. unfold init_usage_counts.
  destruct (init_usage_counts_zero user_agents []) as (H1 & H2 & H3).
  - constructor.
  - intros x [].
  - constructor; auto. intros a b Ha Hb.
    rewrite (H2 a Ha), (H2 b Hb). lia.
Qed.

Lemma init_usage_counts_total (user_agents : list string) :
  total (dict_values (init_usage_counts user_agents)) = 0.
Proof.
  unfold init_usage_counts.
  destruct (init_usage_counts_zero user_agents []) as (_ & H2 & _).
  - constructor.
  - intros x [].
  - induction (dict_values (fold_left (fun d ua => dict_set d ua 0) user_agents []))
      as [|v vs IH]; simpl; [reflexivity|].
    rewrite (H2 v) by (simpl; auto). rewrite IH; [reflexivity|].
    intros x Hx. apply H2. simpl; auto.
Qed.

Lemma least_used_in (counts : dict Z) (m : Z) (ua : string) :
  In ua (least_used counts m) -> In (ua, m) counts.
Proof.
  unfold least_used. intros H. apply in_map_iff in H.
  destruct H as ([k v] & <- & H). apply filter_In in H.
  destruct H as [H Hv]. simpl in *. apply Z.eqb_eq in Hv. now subst.
Qed.

Lemma least_used_nonempty (counts : dict Z) (m : Z) :
  In m (dict_values counts) -> least_used counts m <> [].
Proof.
  unfold dict_values, least_used. intros H. apply in_map_iff in H.
  destruct H as ([k v] & Hv & H). simpl in Hv. subst v.
  assert (Hin : In (k, m) (filter (fun p => snd p =? m) counts)).
  { apply filter_In. split; [exact H|]. simpl. apply Z.eqb_refl. }
  intros Hnil. apply (in_map fst) in Hin. rewrite Hnil in Hin. exact Hin.
Qed.

(** A call on a balanced rotator returns, picks an identity whose counter
    is the minimum, and adds one to that counter only. *)
Lemma get_next_user_agent_balanced (choice : nat) (counts : dict Z) :
  balanced counts ->
  exists ua counts',
    get_next_user_agent choice counts = inr (ua, counts') /\
    balanced counts' /\
    py_min (dict_values counts) = dict_get counts ua /\
    total (dict_values counts') = total (dict_values counts) + 1.
Proof.
  intros [Hne Hnd Hsp]. unfold get_next_user_agent.
  destruct (py_min_some (dict_values counts)) as [m Hm].
  { destruct counts; [congruence|discriminate]. }
  rewrite Hm. destruct (py_min_spec _ _ Hm) as [Hin Hle].
  pose proof (least_used_nonempty counts m Hin) as Hlu.
  destruct (nth_error (least_used counts m)
              (choice mod length (least_used counts m))) as [ua|] eqn:Hnth.
  2:{ exfalso. apply nth_error_None in Hnth.
      assert (length (least_used counts m) <> 0%nat)
        by (destruct (least_used counts m); simpl; congruence).
      pose proof (Nat.mod_upper_bound choice _ H). lia. }
  apply nth_error_In in Hnth. apply least_used_in in Hnth.
  rewrite (dict_get_in _ _ _ Hnd Hnth).
  exists ua, (dict_set counts ua (m + 1)). repeat split.
  - apply dict_set_nonempty.
  - rewrite (dict_set_keys_present counts ua (m + 1) m); auto.
    now apply dict_get_in.
  - intros a b Ha Hb.
    apply dict_set_values_in in Ha. apply dict_set_values_in in Hb.
    destruct Ha as [->|Ha], Hb as [->|Hb].
    + lia.
    + specialize (Hle b Hb). lia.
    + specialize (Hsp a m Ha Hin). lia.
    + auto.
  - symmetry. now apply dict_get_in.
  - apply dict_set_total. now apply dict_get_in.
Qed.

Lemma rotate_balanced (choices : list nat) (counts : dict Z) :
  balanced counts ->
  balanced (rotate choices counts) /\
  total (dict_values (rotate choices counts))
  = total (dict_values counts) + Z.of_nat (length choices) /\
  Forall (fun r => returns r = true) (rotate_agents choices counts).
Proof.
  revert counts; induction choices as [|c rest IH]; intros counts Hb.
  - simpl. split; [exact Hb|split; [lia|constructor]].
  - cbn [rotate rotate_agents length].
    destruct (get_next_user_agent_balanced c counts Hb)
      as (ua & counts' & -> & Hb' & _ & Ht).
    destruct (IH counts' Hb') as (H1 & H2 & H3).
    split; [exact H1|split; [lia|constructor; auto]].
Qed.

(** C4. Starting from a non-empty pool with every usage count at zero,
    after any [N] calls of [get_next_user_agent], whatever the random
    draws, the largest and the smallest usage count differ by at most 1;
    and the calls are real ones: each of them returns an identity and the
    counts add up to [N]. *)
Theorem usage_spread_at_most_one (user_agents : list string)
        (choices : list nat) :
  user_agents <> [] ->
  let counts := rotate choices (init_usage_counts user_agents) in
  (exists mx mn,
      py_max (dict_values counts) = Some mx /\
      py_min (dict_values counts) = Some mn /\
      0 <= mx - mn <= 1) /\
  Forall (fun r => returns r = true)
         (rotate_agents choices (init_usage_counts user_agents)) /\
  total (dict_values counts) = Z.of_nat (length choices).
Proof.
  intros Hne counts.
  destruct (rotate_balanced choices _ (init_usage_counts_balanced _ Hne))
    as ([Hn Hd Hs] & Ht & Hr).
  fold counts in Hn, Hd, Hs, Ht.
  rewrite init_usage_counts_total in Ht.
  repeat split; auto.
  assert (Hv : dict_values counts <> [])
    by (destruct counts; [congruence|discriminate]).
  destruct (py_max_some _ Hv) as [mx Hmx], (py_min_some _ Hv) as [mn Hmn].
  exists mx, mn. repeat split; auto.
  - destruct (py_max_spec _ _ Hmx) as [Hin Hle].
    destruct (py_min_spec _ _ Hmn) as [Hin' _].
    specialize (Hle mn Hin'). lia.
  - destruct (py_max_spec _ _ Hmx) as [Hin _].
    destruct (py_min_spec _ _ Hmn) as [Hin' _].
    specialize (Hs mx mn Hin Hin'). lia.
Qed.

Lemma usage_spread_at_most_one_witness :
  let counts := rotate [0; 5; 1; 2; 7]%nat (init_usage_counts ["a"; "b"; "a"; "c"]) in
  (exists mx mn,
      py_max (dict_values counts) = Some mx /\
      py_min (dict_values counts) = Some mn /\
      0 <= mx - mn <= 1) /\
  Forall (fun r => returns r = true)
         (rotate_agents [0; 5; 1; 2; 7]%nat (init_usage_counts ["a"; "b"; "a"; "c"])) /\
  total (dict_values counts) = Z.of_nat (length [0; 5; 1; 2; 7]%nat).
Proof.
  apply (usage_spread_at_most_one ["a"; "b"; "a"; "c"] [0; 5; 1; 2; 7]%nat).
  discriminate.
Defined.

End Rotator.

(** ** Reasoning about the monad *)

Ltac unfold_monad :=
  unfold bind, ret, raise, lift, try_except, get_config, emit, consult,
    logger_info, logger_error, set_errors_occurred, raise_for_status in *.

(** Split on the scrutinee of the first [match] or [if] met in the goal. *)
Ltac split_match :=
  match goal with
  | |- context [match ?x with _ => _ end] =>
      lazymatch x with
      | context [match _ with _ => _ end] => fail
      | _ => destruct x eqn:?
      end
  end.

Section Fetch.

Variable W : World.

Ltac unfold_fetch :=
  unfold fetch_article_content, next_user_agent, random_uniform, time_sleep,
    session_get;
  unfold_monad.


(** What a returning call of [fetch_article_content] has seen and done. *)
Lemma fetch_returns (a : article) (s : scraper) (a' : article) :
  fst (fetch_article_content W a s) = inr a' ->
  exists p ps n code body,
    content a' = Some (p :: ps) /\
    title a' = title a /\ description a' = description a /\
    date a' = date a /\ link a' = link a /\
    page W (link a) = Reply n code body /\
    (400 <=? code) && (code <? 600) = false /\
    extract_contents body = p :: ps /\
    logged (snd (fetch_article_content W a s)) = logged s /\
    errors_occurred (snd (fetch_article_content W a s)) = errors_occurred s.
Proof.
  unfold_fetch.
  repeat (split_match; cbn); intros H; try discriminate.
  all: injection H as <-; cbn; do 5 eexists;
    repeat split; try reflexivity; eassumption.
Qed.

(** C7. A call of [fetch_article_content] that returns has put at least
    one text block under [content], taken from a page that came back with
    a good status, and has recorded no failure: the log and the failure
    flag are as before.  And when the page comes back with a good status
    and no text block at all, the call raises: either
    [ValueError("No content found in article")], logged as an error with
    the failure flag set, or an earlier exception raised before any request
    was made.  So no call is both a success and a failure, and no success
    has an empty content. *)
Theorem no_success_with_empty_content (a : article) (s : scraper) :
  let r := fetch_article_content W a s in
  (forall a', fst r = inr a' ->
     exists p ps n code body,
       content a' = Some (p :: ps) /\
       (1 <= length (p :: ps))%nat /\
       page W (link a) = Reply n code body /\
       (400 <=? code) && (code <? 600) = false /\
       extract_contents body = p :: ps /\
       logged (snd r) = logged s /\
       errors_occurred (snd r) = errors_occurred s) /\
  (forall n code body,
     page W (link a) = Reply n code body ->
     (400 <=? code) && (code <? 600) = false ->
     extract_contents body = [] ->
     let e := ValueError "No content found in article" in
     (fst r = inl e /\
      errors_occurred (snd r) = true /\
      logged (snd r) = logged s ++ [(ERROR, ErrorProcessingLink (link a) e)]) \/
     (exists e' evs,
         fst r = inl e' /\
         history (snd r) = history s ++ evs /\
         forallb (fun ev => negb (is_request ev)) evs = true)).
Proof.
  split.
  - intros a' H. apply fetch_returns in H.
    destruct H as (p & ps & n & code & body & H1 & _ & _ & _ & _ & H2 & H3
                   & H4 & H5 & H6).
    exists p, ps, n, code, body. repeat split; auto. cbn. lia.
  - unfold_fetch. intros n code body Hp Hc He.
    repeat (split_match; cbn);
      try match goal with
          | H : page W _ = _ |- _ => rewrite Hp in H; try discriminate H;
                                     injection H as <- <- <-
          end;
      try congruence.
    + right. exists e, []. rewrite app_nil_r. auto.
    + left. auto.
    + right. do 2 eexists. repeat split.
Qed.

End Fetch.



Lemma no_success_with_empty_content_witness :
  (exists p ps,
      option_map content
        (match fst (fetch_article_content example_world (example_article "1")
                      example_scraper) with
         | inr a' => Some a'
         | inl _ => None
         end) = Some (Some (p :: ps))) /\
  fst (fetch_article_content example_world (example_article "2")
         example_scraper)
  = inl (ValueError "No content found in article").
Proof.
  split.
  - destruct (no_success_with_empty_content
                example_world (example_article "1") example_scraper)
      as [Hok _].
    destruct (Hok _ eq_refl) as (p & ps & n & code & body & Hc & _).
    exists p, ps. cbn [option_map]. now rewrite <- Hc.
  - destruct (no_success_with_empty_content
                example_world (example_article "2") example_scraper)
      as [_ Hfail].
    destruct (Hfail 1%nat 200
                {| header_lead := None; text_block_paragraphs := [] |}
                eq_refl eq_refl eq_refl)
      as [(H & _)|(e' & evs & _ & Hh & Hf)].
    + exact H.
    + exfalso. vm_compute in Hh. injection Hh as <-.
      vm_compute in Hf. discriminate Hf.
Defined.

(** ** get_news_list: the addresses of the items *)

Section Listing.

Variable W : World.

Lemma items_to_articles_links (items : list listing_item)
      (arts : list article) :
  items_to_articles W items = inr arts ->
  Forall2 (fun it a => exists lk,
               item_link it = Some lk /\ link a = locator lk) items arts.
Proof.
  revert arts; induction items as [|it items IH]; intros arts H; simpl in H.
  - injection H as <-. constructor.
  - destruct (item_to_article W it) as [e|a] eqn:Ha; [discriminate|].
    destruct (items_to_articles W items) as [e|l]; [discriminate|].
    injection H as <-. constructor; [|now apply IH].
    unfold item_to_article in Ha.
    destruct (item_title it), (item_lead it), (item_date it),
      (item_link it) as [lk|]; try discriminate.
    injection Ha as <-. exists lk. split; reflexivity.
Qed.

Lemma starts_with_slash (lk : string) :
  starts_with "/" lk = true -> exists rest, lk = String "/"%char rest.
Proof.
  destruct lk as [|c lk]; [discriminate|]. intros H.
  assert (Hc : Ascii.eqb "/"%char c = true).
  { destruct (Ascii.eqb "/"%char c) eqn:E; [reflexivity|].
    exfalso. revert H.
    change (starts_with "/" (String c lk))
      with (Ascii.eqb "/"%char c && starts_with EmptyString lk).
    rewrite E. discriminate. }
  apply Ascii.eqb_eq in Hc. subst c. eauto.
Qed.

(** What a returning call of [get_news_list] has seen. *)
Lemma get_news_list_returns (category : string) (s : scraper)
      (arts : list article) (s' : scraper) :
  get_news_list W category s = (inr arts, s') ->
  exists sectionId n code items,
    dict_get CATEGORY_MAP category = Some sectionId /\
    categoryNewsList W sectionId (headlines_per_category (config s))
    = Reply n code (Json (Some items)) /\
    items_to_articles W items = inr arts.
Proof.
  unfold get_news_list, next_user_agent, session_post. unfold_monad.
  destruct (dict_get CATEGORY_MAP category) as [sec|] eqn:Hsec;
    repeat (split_match; cbn); intros H; try discriminate.
  injection H as <- _. do 4 eexists. repeat split; eassumption.
Qed.

(** C8, as amended. When [get_news_list] returns, its articles are the
    items of the [newsList] array of the response, in order, and the
    address of each is [https://tass.com] followed by the item's link, as
    it came.  For a link that is a path (it starts with [/]) that is the
    absolute address the specification asks for, on the host [tass.com]. *)
Theorem links_are_prefixed_with_the_site (category : string) (s : scraper)
        (arts : list article) (s' : scraper) :
  get_news_list W category s = (inr arts, s') ->
  exists sectionId n code items,
    dict_get CATEGORY_MAP category = Some sectionId /\
    categoryNewsList W sectionId (headlines_per_category (config s))
    = Reply n code (Json (Some items)) /\
    Forall2 (fun it a => exists lk,
                 item_link it = Some lk /\
                 link a = ("https://tass.com" ++ lk)%string /\
                 (starts_with "/" lk = true ->
                  link a = qualified_address lk /\
                  is_absolute (link a) = true /\
                  host_of (link a) = Some "tass.com"))
            items arts.
Proof.
  intros H. apply get_news_list_returns in H.
  destruct H as (sec & n & code & items & Hsec & Hr & Hi).
  exists sec, n, code, items. split; [exact Hsec|split; [exact Hr|]].
  apply items_to_articles_links in Hi.
  eapply Forall2_impl; [|exact Hi].
  intros it art (lk & Hl & Ha). exists lk.
  split; [exact Hl|split; [exact Ha|]]. intros Hp.
  apply starts_with_slash in Hp. destruct Hp as [rest ->].
  rewrite Ha. repeat split.
Qed.

End Listing.

Lemma links_are_prefixed_with_the_site_witness :
  let r := get_news_list example_world "politics" example_scraper in
  exists sectionId n code items,
    dict_get CATEGORY_MAP "politics" = Some sectionId /\
    categoryNewsList example_world sectionId
                     (headlines_per_category (config example_scraper))
    = Reply n code (Json (Some items)) /\
    Forall2 (fun it a => exists lk,
                 item_link it = Some lk /\
                 link a = ("https://tass.com" ++ lk)%string /\
                 (starts_with "/" lk = true ->
                  link a = qualified_address lk /\
                  is_absolute (link a) = true /\
                  host_of (link a) = Some "tass.com"))
            items
            (match fst r with inr arts => arts | inl _ => [] end).
Proof.
  intros r.
  apply (links_are_prefixed_with_the_site
           example_world "politics" example_scraper _ (snd r)).
  vm_compute. reflexivity.
Defined.

(** C8, as stated, fails on a link that is already absolute: the site is
    put in front of it all the same, the result is not the address the
    item gave, and its host is no longer [tass.com]. *)
Lemma absolute_link_is_mangled :
  exists a s',
    get_news_list absolute_link_world "politics" example_scraper
    = (inr [a], s') /\
    link a = "https://tass.comhttps://tass.com/politics/1" /\
    link a <> qualified_address "https://tass.com/politics/1" /\
    host_of (link a) = Some "tass.comhttps" /\
    host_of "https://tass.com/politics/1" = Some "tass.com".
Proof.
  eexists. eexists. split; [vm_compute; reflexivity|].
  repeat split. discriminate.
Qed.

(** ** Configuration errors and the start of the run *)

Section Startup.

Variable W : World.

Ltac unfold_init :=
  unfold __init__, mkdir, open_log; unfold_monad.

Lemma init_config (s : scraper) : config (snd (__init__ W s)) = config s.
Proof.
  unfold_init. repeat (split_match; cbn); reflexivity.
Qed.

Lemma init_history (s : scraper) :
  exists evs,
    history (snd (__init__ W s)) = history s ++ evs /\
    logged (snd (__init__ W s)) = logged s /\
    forallb (fun ev => negb (is_request ev) && negb (is_write ev)
                       && negb (is_sleep ev)) evs = true.
Proof.
  unfold_init.
  repeat (split_match; cbn); repeat rewrite <- app_assoc; cbn [app];
    try (eexists; repeat split; reflexivity).
  all: exists []; rewrite app_nil_r; repeat split.
Qed.

(** C3, as amended. On a configuration that [validate] rejects, [run]
    raises the configuration error at once and leaves the scraper as it
    was: no category is processed, no listing or article is requested, no
    artifact is written, nothing is logged.  [main] then exits with
    status 1, and all that has happened is what the constructor did before
    [run] was called: the output and log directories, the log file and the
    two version look-ups of the rotator. *)
Theorem config_error_before_any_category (c : NewsScraperConfig) (e : exn) :
  validate c = inl e ->
  (forall s, config s = c -> run W s = (inl e, s)) /\
  fst (main W c) = Some 1 /\
  snd (main W c) = snd (__init__ W (fresh c)) /\
  logged (snd (main W c)) = [] /\
  forallb (fun ev => negb (is_request ev) && negb (is_write ev)
                     && negb (is_sleep ev))
          (history (snd (main W c))) = true.
Proof.
  intros Hv.
  assert (Hrun : forall s, config s = c -> run W s = (inl e, s)).
  { intros s <-. unfold run. unfold_monad. now rewrite Hv. }
  assert (Hmain : fst (main W c) = Some 1 /\
                  snd (main W c) = snd (__init__ W (fresh c))).
  { unfold main, bind.
    pose proof (init_config (fresh c)) as Hc.
    destruct (__init__ W (fresh c)) as [[e'|[]] s1]; cbn in *.
    - auto.
    - rewrite (Hrun s1 Hc). auto. }
  destruct Hmain as [H1 H2]. rewrite H2.
  destruct (init_history (fresh c)) as (evs & Hh & Hl & Hf).
  repeat split; auto.
  rewrite Hh. exact Hf.
Qed.

End Startup.

Lemma config_error_before_any_category_witness :
  run example_world
      (snd (__init__ example_world (fresh zero_headlines_config)))
  = (inl (ValueError "headlines_per_category must be positive"),
     snd (__init__ example_world (fresh zero_headlines_config)))
  /\ fst (main example_world zero_headlines_config) = Some 1.
Proof.
  destruct (config_error_before_any_category
              example_world zero_headlines_config
              (ValueError "headlines_per_category must be positive")
              eq_refl) as (Hrun & Hexit & _).
  split; [|exact Hexit].
  apply Hrun. reflexivity.
Defined.

(** C3, as stated, fails: with [headlines_per_category = 0] the error is
    raised only after the constructor has made two directories, opened the
    log file and sent two requests. *)
Lemma constructor_io_precedes_validation :
  ~ config_error_before_any_io example_world zero_headlines_config.
Proof.
  intros H.
  specialize (H (ValueError "headlines_per_category must be positive")
                eq_refl).
  vm_compute in H. discriminate H.
Qed.

(** ** How a method may change the scraper

    [extends Pev Plog s s'] says that [s'] is [s] with more history and
    more log, nothing else changed but the usage counters, the tick and
    the failure flag; that the new events satisfy [Pev] and the new log
    records [Plog]; and that the failure flag of [s'] is the flag of [s] or
    the presence of an error among the new log records. *)

Section Extends.

Variable Pev : event -> bool.
Variable Plog : log_record -> bool.

Record extends (s s' : scraper) : Prop := {
  ext_config : config s' = config s;
  ext_history : exists evs,
      history s' = history s ++ evs /\ forallb Pev evs = true;
  ext_logged : exists l,
      logged s' = logged s ++ l /\ forallb Plog l = true /\
      errors_occurred s' = errors_occurred s || existsb is_error l
}.

Lemma extends_refl (s : scraper) : extends s s.
Proof.
  constructor; [reflexivity| |]; exists []; rewrite app_nil_r; cbn;
    rewrite ?orb_false_r; auto.
Qed.

Lemma extends_trans (s1 s2 s3 : scraper) :
  extends s1 s2 -> extends s2 s3 -> extends s1 s3.
Proof.
  intros [Hc1 (e1 & He1 & Hp1) (l1 & Hl1 & Hq1 & Hf1)]
         [Hc2 (e2 & He2 & Hp2) (l2 & Hl2 & Hq2 & Hf2)].
  constructor.
  - congruence.
  - exists (e1 ++ e2). rewrite He2, He1, app_assoc, forallb_app, Hp1, Hp2. auto.
  - exists (l1 ++ l2).
    rewrite Hl2, Hl1, app_assoc, forallb_app, existsb_app, Hq1, Hq2, Hf2, Hf1.
    rewrite orb_assoc. auto.
Qed.

(** A method keeps the discipline when every call of it does. *)
Definition keeps {A : Type} (m : M A) : Prop :=
  forall s, extends s (snd (m s)).

Lemma keeps_ret {A : Type} (a : A) : keeps (ret a).
Proof. intros s. apply extends_refl. Qed.

Lemma keeps_raise {A : Type} (e : exn) : keeps (@raise A e).
Proof. intros s. apply extends_refl. Qed.

Lemma keeps_lift {A : Type} (r : result A) : keeps (lift r).
Proof. intros s. apply extends_refl. Qed.

Lemma keeps_get_config : keeps get_config.
Proof. intros s. apply extends_refl. Qed.

Lemma keeps_bind {A B : Type} (m : M A) (k : A -> M B) :
  keeps m -> (forall a, keeps (k a)) -> keeps (bind m k).
Proof.
  intros Hm Hk s. unfold bind. specialize (Hm s).
  destruct (m s) as [[e|a] s1]; cbn in *; [exact Hm|].
  eapply extends_trans; [exact Hm|apply Hk].
Qed.

Lemma keeps_try_except {A : Type} (body : M A) (handler : exn -> M A) :
  keeps body -> (forall e, keeps (handler e)) -> keeps (try_except body handler).
Proof.
  intros Hm Hk s. unfold try_except. specialize (Hm s).
  destruct (body s) as [[e|a] s1]; cbn in *; [|exact Hm].
  eapply extends_trans; [exact Hm|apply Hk].
Qed.

Lemma keeps_consult {A : Type} (oracle : nat -> A) : keeps (consult oracle).
Proof.
  intros s. cbn. constructor; [reflexivity| |]; exists [];
    rewrite app_nil_r; cbn; rewrite ?orb_false_r; auto.
Qed.

Lemma keeps_emit (e : event) : Pev e = true -> keeps (emit e).
Proof.
  intros He s. cbn. constructor; [reflexivity| |].
  - exists [e]. cbn. rewrite He. auto.
  - exists []. rewrite app_nil_r. cbn. rewrite orb_false_r. auto.
Qed.

Lemma keeps_logger_info (m : message) :
  Plog (INFO, m) = true -> keeps (logger_info m).
Proof.
  intros Hm s. cbn. constructor; [reflexivity| |].
  - exists []. rewrite app_nil_r. auto.
  - exists [(INFO, m)]. cbn. rewrite Hm, orb_false_r. auto.
Qed.

(** The failure idiom of the program: [self.logger.error(...)] followed by
    [self.errors_occurred = True]. *)
Lemma keeps_failure {A : Type} (m : message) (k : M A) :
  Plog (ERROR, m) = true -> keeps k ->
  keeps (logger_error m ;;; set_errors_occurred ;;; k).
Proof.
  intros Hm Hk s. unfold bind, logger_error, set_errors_occurred. cbn.
  eapply extends_trans; [|apply Hk].
  constructor; [reflexivity| |]; cbn.
  - exists []. rewrite app_nil_r. auto.
  - exists [(ERROR, m)]. cbn. rewrite Hm, orb_true_r. auto.
Qed.

Lemma keeps_failure_last (m : message) :
  Plog (ERROR, m) = true ->
  keeps (logger_error m ;;; set_errors_occurred).
Proof.
  intros Hm s. unfold bind, logger_error, set_errors_occurred. cbn.
  constructor; [reflexivity| |]; cbn.
  - exists []. rewrite app_nil_r. auto.
  - exists [(ERROR, m)]. cbn. rewrite Hm, orb_true_r. auto.
Qed.

Lemma keeps_next_user_agent (W : World) :
  (forall ua, Pev (EvIdentity ua) = true) -> keeps (next_user_agent W).
Proof.
  intros Hid s. unfold next_user_agent.
  destruct (get_next_user_agent _ _) as [e|[ua counts]]; cbn.
  - apply extends_refl.
  - constructor; [reflexivity| |]; cbn.
    + exists [EvIdentity ua]. cbn. rewrite Hid. auto.
    + exists []. rewrite app_nil_r. cbn. rewrite orb_false_r. auto.
Qed.

End Extends.

Lemma extends_weaken (Pev Pev' : event -> bool)
      (Plog Plog' : log_record -> bool) (s s' : scraper) :
  (forall e, Pev e = true -> Pev' e = true) ->
  (forall r, Plog r = true -> Plog' r = true) ->
  extends Pev Plog s s' -> extends Pev' Plog' s s'.
Proof.
  intros He Hl [Hc (evs & Hh & Hp) (l & Hg & Hq & Hf)].
  constructor; [exact Hc| |].
  - exists evs. split; [exact Hh|].
    rewrite forallb_forall in *. auto.
  - exists l. split; [exact Hg|]. split; [|exact Hf].
    rewrite forallb_forall in *. auto.
Qed.

Lemma article_errors_app (l1 l2 : list log_record) :
  article_errors (l1 ++ l2) = (article_errors l1 + article_errors l2)%nat.
Proof.
  unfold article_errors. now rewrite filter_app, length_app.
Qed.

Lemma article_errors_none (l : list log_record) :
  forallb not_article_error l = true -> article_errors l = 0%nat.
Proof.
  unfold article_errors, not_article_error.
  induction l as [|r l IH]; cbn; [reflexivity|].
  intros H. apply andb_true_iff in H. destruct H as [Hr Hl].
  apply negb_true_iff in Hr. rewrite Hr. auto.
Qed.

Ltac keeps_step :=
  cbv zeta;
  first
    [ apply keeps_ret
    | apply keeps_raise
    | apply keeps_lift
    | apply keeps_get_config
    | apply keeps_consult
    | apply keeps_emit; reflexivity
    | apply keeps_logger_info; reflexivity
    | apply keeps_next_user_agent; reflexivity
    | apply keeps_failure;
      [try reflexivity; match goal with
                        | |- context [if ?b then _ else _] =>
                            destruct b; reflexivity
                        end|]
    | apply keeps_failure_last; reflexivity
    | apply keeps_try_except; [|intros]
    | apply keeps_bind; [|intros]
    | match goal with
      | |- keeps _ _ (match ?x with _ => _ end) => destruct x
      end ].

Section Methods.

Variable W : World.

Lemma keeps_fetch_article_content (a : article) :
  keeps not_write not_article_error (fetch_article_content W a).
Proof.
  unfold fetch_article_content, random_uniform, time_sleep, session_get,
    raise_for_status.
  repeat keeps_step.
Qed.

Lemma keeps_get_news_list (category : string) :
  keeps not_write not_article_error (get_news_list W category).
Proof.
  unfold get_news_list, session_post, raise_for_status.
  repeat keeps_step.
Qed.

Lemma keeps_run_task (a : article) :
  keeps not_write not_article_error (run_task W a).
Proof.
  intros s. unfold run_task.
  pose proof (keeps_fetch_article_content a s) as H.
  destruct (fetch_article_content W a s). exact H.
Qed.

Lemma keeps_save_to_csv (articles : list article) (output_path : path) :
  keeps any_event not_article_error (save_to_csv W articles output_path).
Proof.
  unfold save_to_csv. repeat keeps_step.
Qed.

Lemma keeps_json_dump (articles : list article) (output_path : path) :
  keeps any_event not_article_error (json_dump W articles output_path).
Proof.
  unfold json_dump. repeat keeps_step.
Qed.

Lemma keeps_perform (act : action) (p : pool) :
  keeps not_write any_record (perform W act p).
Proof.
  unfold perform. destruct act as [k|k|k].
  - repeat keeps_step.
  - destruct (nth_error (tasks p) k) as [[a st]|]; [|apply keeps_ret].
    apply keeps_bind; [|intros; apply keeps_ret].
    intros s. eapply extends_weaken; [| |apply keeps_run_task]; auto.
  - destruct (nth_error (tasks p) k) as [[a [| |[e|a']]]|];
      repeat keeps_step.
Qed.

Lemma keeps_pool_step (workers : Z) (p : pool) :
  keeps not_write any_record (pool_step W workers p).
Proof.
  unfold pool_step. destruct (enabled workers p); [apply keeps_ret|].
  apply keeps_bind; [apply keeps_consult|intros; apply keeps_perform].
Qed.

Lemma keeps_pool_run (fuel : nat) (workers : Z) (p : pool) :
  keeps not_write any_record (pool_run W fuel workers p).
Proof.
  revert p; induction fuel as [|fuel IH]; intros p; cbn [pool_run].
  - apply keeps_ret.
  - apply keeps_bind; [apply keeps_pool_step|intros; apply IH].
Qed.

Lemma keeps_run_pool (workers : Z) (news_list : list article) :
  keeps not_write any_record (run_pool W workers news_list).
Proof.
  unfold run_pool. destruct (workers <=? 0); [apply keeps_raise|].
  apply keeps_pool_run.
Qed.

Lemma keeps_process_category (category : string) :
  keeps any_event any_record (process_category W category).
Proof.
  unfold process_category.
  apply keeps_try_except; [|intros; apply keeps_failure_last; reflexivity].
  apply keeps_bind.
  { intros s. eapply extends_weaken; [| |apply keeps_get_news_list]; auto. }
  intros news_list. apply keeps_bind; [apply keeps_get_config|intros c].
  apply keeps_bind.
  { intros s. eapply extends_weaken; [| |apply keeps_run_pool]; auto. }
  intros p. apply keeps_bind; [|intros; apply keeps_logger_info; reflexivity].
  destruct (use_csv c); intros s;
    (eapply extends_weaken;
     [| |first [apply keeps_save_to_csv|apply keeps_json_dump]]); auto.
Qed.


End Methods.

(** ** The worker pool *)

Section ListFacts.

Lemma successes_app (l1 l2 : list (article * status)) :
  successes (l1 ++ l2) = successes l1 ++ successes l2.
Proof.
  induction l1 as [|[a [| |[e|a']]] l1 IH]; cbn; auto. now rewrite IH.
Qed.

Lemma failures_app (l1 l2 : list (article * status)) :
  failures (l1 ++ l2) = (failures l1 + failures l2)%nat.
Proof.
  induction l1 as [|[a [| |[e|a']]] l1 IH]; cbn; auto.
Qed.


Lemma firstn_succ {A : Type} (l : list A) (k : nat) (x : A) :
  nth_error l k = Some x -> firstn (S k) l = firstn k l ++ [x].
Proof.
  revert k; induction l as [|y l IH]; intros [|k] H; cbn in *;
    try discriminate.
  - now injection H as ->.
  - now rewrite (IH k H).
Qed.

Lemma positions_spec (f : article * status -> bool) (i : nat)
      (ts : list (article * status)) (k : nat) :
  In k (positions f i ts) <->
  (i <= k)%nat /\ exists t, nth_error ts (k - i) = Some t /\ f t = true.
Proof.
  revert i; induction ts as [|t ts IH]; intros i; cbn.
  - split; [intros []|]. intros (_ & t & H & _).
    destruct (k - i)%nat; discriminate.
  - assert (Hrest : In k (positions f (S i) ts) <->
                    (i < k)%nat /\ exists t', nth_error ts (k - S i) = Some t'
                                              /\ f t' = true).
    { rewrite IH. reflexivity. }
    destruct (f t) eqn:Hf; cbn; rewrite ?Hrest; split.
    + intros [<-|(Hlt & t' & Hn & Ht)].
      * split; [lia|]. exists t. rewrite Nat.sub_diag. auto.
      * split; [lia|]. exists t'. replace (k - i)%nat with (S (k - S i)) by lia.
        auto.
    + intros (Hle & t' & Hn & Ht).
      destruct (Nat.eq_dec i k) as [->|Hne]; [now left|right].
      split; [lia|]. exists t'.
      replace (k - i)%nat with (S (k - S i)) in Hn by lia. auto.
    + intros (Hlt & t' & Hn & Ht).
      split; [lia|]. exists t'. replace (k - i)%nat with (S (k - S i)) by lia.
      auto.
    + intros (Hle & t' & Hn & Ht).
      destruct (Nat.eq_dec i k) as [->|Hne].
      * rewrite Nat.sub_diag in Hn. cbn in Hn. injection Hn as <-. congruence.
      * split; [lia|]. exists t'.
        replace (k - i)%nat with (S (k - S i)) in Hn by lia. auto.
Qed.

Lemma positions_nth (f : article * status -> bool)
      (ts : list (article * status)) (k : nat) :
  In k (positions f 0 ts) <->
  exists t, nth_error ts k = Some t /\ f t = true.
Proof.
  rewrite positions_spec, Nat.sub_0_r. split.
  - now intros [_ H].
  - intros H. split; [lia|exact H].
Qed.

Lemma set_status_length (k : nat) (st : status)
      (ts : list (article * status)) :
  length (set_status k st ts) = length ts.
Proof.
  revert k; induction ts as [|[a st'] ts IH]; intros [|k]; cbn; auto.
Qed.

Lemma set_status_articles (k : nat) (st : status)
      (ts : list (article * status)) :
  map fst (set_status k st ts) = map fst ts.
Proof.
  revert k; induction ts as [|[a st'] ts IH]; intros [|k]; cbn; auto.
  now rewrite IH.
Qed.

Lemma set_status_same (k : nat) (st st0 : status) (a : article)
      (ts : list (article * status)) :
  nth_error ts k = Some (a, st0) ->
  nth_error (set_status k st ts) k = Some (a, st).
Proof.
  revert k; induction ts as [|[a' st'] ts IH]; intros [|k] H; cbn in *;
    try discriminate; auto.
  now injection H as -> _.
Qed.

Lemma set_status_other (k j : nat) (st : status)
      (ts : list (article * status)) :
  j <> k -> nth_error (set_status k st ts) j = nth_error ts j.
Proof.
  revert k j; induction ts as [|[a' st'] ts IH]; intros [|k] [|j] H; cbn;
    auto; congruence.
Qed.

Lemma set_status_firstn (c k : nat) (st : status)
      (ts : list (article * status)) :
  (c <= k)%nat -> firstn c (set_status k st ts) = firstn c ts.
Proof.
  revert c k; induction ts as [|[a' st'] ts IH]; intros [|c] [|k] H; cbn;
    auto; try lia.
  rewrite IH; auto. lia.
Qed.

Lemma set_status_weight (k : nat) (st st0 : status) (a : article)
      (ts : list (article * status)) :
  nth_error ts k = Some (a, st0) ->
  (list_sum (map weight (set_status k st ts)) + weight (a, st0)
   = list_sum (map weight ts) + weight (a, st))%nat.
Proof.
  revert k; induction ts as [|[a' st'] ts IH]; intros [|k] H;
    cbn [nth_error] in H; try discriminate;
    cbn [set_status map list_sum fold_right].
  - injection H as -> ->.
    generalize (weight (a, st)) (weight (a, st0))
               (fold_right Init.Nat.add 0%nat (map weight ts)).
    intros; lia.
  - specialize (IH k H). unfold list_sum in IH.
    revert IH.
    generalize (weight (a, st)) (weight (a, st0)) (weight (a', st'))
               (fold_right Init.Nat.add 0%nat (map weight ts))
               (fold_right Init.Nat.add 0%nat (map weight (set_status k st ts))).
    intros; lia.
Qed.

Lemma set_status_Forall (P : article * status -> Prop) (k : nat)
      (st st0 : status) (a : article) (ts : list (article * status)) :
  nth_error ts k = Some (a, st0) -> P (a, st) -> Forall P ts ->
  Forall P (set_status k st ts).
Proof.
  revert k; induction ts as [|[a' st'] ts IH]; intros [|k] H Hp Hf; cbn in *;
    try discriminate; inversion Hf; subst.
  - injection H as -> _. now constructor.
  - constructor; eauto.
Qed.

Lemma beyond_the_done_prefix (c k : nat) (t : article * status)
      (ts : list (article * status)) :
  forallb is_done (firstn c ts) = true ->
  nth_error ts k = Some t -> is_done t = false -> (c <= k)%nat.
Proof.
  intros Hd Hn Ht. destruct (le_lt_dec c k) as [|Hlt]; [assumption|exfalso].
  rewrite forallb_forall in Hd.
  assert (Hin : In t (firstn c ts)).
  { apply nth_error_In with k. rewrite nth_error_firstn.
    apply Nat.ltb_lt in Hlt. now rewrite Hlt. }
  rewrite (Hd t Hin) in Ht. discriminate.
Qed.

End ListFacts.

Section Pool.

Variable W : World.
Variable workers : Z.
Hypothesis workers_positive : 0 < workers.
Variable news_list : list article.
Variable errors0 : nat.

(** What holds of the pool, and of the scraper beside it, after any number
    of scheduling decisions: the tasks are the items of the listing, in
    order; the futures before the cursor are done, and the articles
    collected and the errors logged are theirs, in order; the result of a
    done future is what the call of [fetch_article_content] on its item
    gave; and the finished tasks are listed once each. *)
Record pool_inv (p : pool) (s : scraper) : Prop := {
  inv_articles : map fst (tasks p) = news_list;
  inv_cursor : (cursor p <= length (tasks p))%nat;
  inv_collected : forallb is_done (firstn (cursor p) (tasks p)) = true;
  inv_processed :
    processed_articles p = successes (firstn (cursor p) (tasks p));
  inv_errors :
    article_errors (logged s)
    = (errors0 + failures (firstn (cursor p) (tasks p)))%nat;
  inv_outcomes :
    Forall (fun t => forall o, snd t = Done o ->
                exists s1, o = fst (fetch_article_content W (fst t) s1))
           (tasks p);
  inv_completed_once : NoDup (completed p);
  inv_completed : forall k,
      In k (completed p) <->
      exists a o, nth_error (tasks p) k = Some (a, Done o)
}.

Lemma initial_pool_inv (s : scraper) :
  errors0 = article_errors (logged s) ->
  pool_inv (initial_pool news_list) s.
Proof.
  intros ->. constructor; cbn.
  - rewrite map_map. cbn. apply map_id.
  - lia.
  - reflexivity.
  - reflexivity.
  - lia.
  - apply Forall_forall. intros t Ht o Ho.
    apply in_map_iff in Ht. destruct Ht as (a & <- & _). discriminate.
  - constructor.
  - intros k. split; [intros []|]. intros (a & o & Hk).
    rewrite nth_error_map in Hk.
    destruct (nth_error news_list k); discriminate.
Qed.

Lemma initial_pool_remaining :
  remaining (initial_pool news_list) = (3 * length news_list)%nat.
Proof.
  unfold remaining. cbn. rewrite length_map, Nat.sub_0_r, map_map. cbn.
  induction news_list as [|a l IH]; cbn; [reflexivity|].
  unfold list_sum in IH. lia.
Qed.

Lemma positions_nil (f : article * status -> bool)
      (ts : list (article * status)) :
  positions f 0 ts = [] -> forall t, In t ts -> f t = false.
Proof.
  intros H t Ht. destruct (f t) eqn:Hf; [|reflexivity]. exfalso.
  apply In_nth_error in Ht. destruct Ht as [k Hk].
  assert (Hin : In k (positions f 0 ts)) by (apply positions_nth; eauto).
  rewrite H in Hin. exact Hin.
Qed.

Lemma all_done_weight (ts : list (article * status)) :
  (forall t, In t ts -> is_queued t = false) ->
  (forall t, In t ts -> is_running t = false) ->
  list_sum (map weight ts) = 0%nat /\ forallb is_done ts = true.
Proof.
  induction ts as [|[a st] ts IH]; intros Hq Hr; cbn; [auto|].
  destruct IH as [IH1 IH2].
  { intros t Ht. apply Hq. now right. }
  { intros t Ht. apply Hr. now right. }
  specialize (Hq (a, st) (or_introl eq_refl)).
  specialize (Hr (a, st) (or_introl eq_refl)).
  unfold list_sum in IH1.
  destruct st; cbn in *; try discriminate. auto.
Qed.

(** As long as a decision is still needed, some thread can move. *)
Lemma enabled_progress (p : pool) :
  enabled workers p = [] -> remaining p = 0%nat.
Proof.
  unfold enabled. intros H.
  apply app_eq_nil in H. destruct H as [Hstart H].
  apply app_eq_nil in H. destruct H as [Hrun Hcollect].
  apply map_eq_nil in Hrun. rewrite Hrun in Hstart. cbn in Hstart.
  assert (Hq : positions is_queued 0 (tasks p) = []).
  { destruct (positions is_queued 0 (tasks p)); [reflexivity|].
    destruct (0 <? workers) eqn:E; [discriminate|].
    apply Z.ltb_ge in E. lia. }
  destruct (all_done_weight (tasks p)) as [Hw Hd].
  { now apply positions_nil. }
  { now apply positions_nil. }
  unfold remaining. rewrite Hw. cbn.
  destruct (nth_error (tasks p) (cursor p)) as [[a st]|] eqn:Hn.
  - assert (Hin : In (a, st) (tasks p)) by (eapply nth_error_In; eauto).
    rewrite forallb_forall in Hd. specialize (Hd _ Hin).
    destruct st; cbn in Hd; discriminate.
  - apply nth_error_None in Hn. lia.
Qed.

Lemma enabled_sound (p : pool) (act : action) :
  In act (enabled workers p) ->
  match act with
  | Start k => exists a, nth_error (tasks p) k = Some (a, Queued)
  | Complete k => exists a, nth_error (tasks p) k = Some (a, Running)
  | Collect k =>
      k = cursor p /\ exists a o, nth_error (tasks p) k = Some (a, Done o)
  end.
Proof.
  unfold enabled. intros H.
  apply in_app_or in H. destruct H as [H|H].
  - destruct (positions is_queued 0 (tasks p)) as [|k ks] eqn:E;
      [contradiction|].
    destruct (_ <? _); [|contradiction]. destruct H as [<-|[]].
    assert (Hin : In k (positions is_queued 0 (tasks p)))
      by (rewrite E; now left).
    apply positions_nth in Hin. destruct Hin as ([a st] & Hn & Hf).
    destruct st; try discriminate. eauto.
  - apply in_app_or in H. destruct H as [H|H].
    + apply in_map_iff in H. destruct H as (k & <- & Hin).
      apply positions_nth in Hin. destruct Hin as ([a st] & Hn & Hf).
      destruct st; try discriminate. eauto.
    + destruct (nth_error (tasks p) (cursor p)) as [[a [| |o]]|] eqn:Hn;
        try contradiction.
      destruct H as [<-|[]]. eauto.
Qed.

Lemma done_stays_done (p : pool) (k j : nat) (st st0 : status)
      (a : article) :
  nth_error (tasks p) k = Some (a, st0) -> is_done (a, st0) = false ->
  is_done (a, st) = false ->
  (exists a' o, nth_error (set_status k st (tasks p)) j = Some (a', Done o))
  <-> (exists a' o, nth_error (tasks p) j = Some (a', Done o)).
Proof.
  intros Hn H0 H1. destruct (Nat.eq_dec j k) as [->|Hne].
  - rewrite (set_status_same _ _ _ _ _ Hn), Hn.
    split; intros (a' & o & H); injection H as <- ->; discriminate.
  - now rewrite set_status_other.
Qed.

(** Every decision keeps the invariant and uses up one of the decisions
    the pool still needs. *)
Lemma perform_inv (act : action) (p : pool) (s : scraper) :
  pool_inv p s -> In act (enabled workers p) ->
  exists p' s',
    perform W act p s = (inr p', s') /\ pool_inv p' s' /\
    S (remaining p') = remaining p.
Proof.
  intros [Ha Hc Hd Hp He Ho Hn Hi] Hen.
  apply enabled_sound in Hen. destruct act as [k|k|k].
  - destruct Hen as [a Hk].
    assert (Hck : (cursor p <= k)%nat)
      by (eapply beyond_the_done_prefix; eauto).
    eexists. eexists. split; [reflexivity|]. split.
    + constructor; cbn.
      * now rewrite set_status_articles.
      * now rewrite set_status_length.
      * now rewrite set_status_firstn.
      * now rewrite set_status_firstn.
      * now rewrite set_status_firstn.
      * eapply set_status_Forall; eauto. cbn. discriminate.
      * assumption.
      * intros j. rewrite Hi. symmetry. eapply done_stays_done; eauto.
    + unfold remaining. cbn. rewrite set_status_length.
      pose proof (set_status_weight k Running Queued a (tasks p) Hk) as Hw.
      unfold weight in Hw at 2 4. cbn in Hw. unfold list_sum in *. lia.
  - destruct Hen as [a Hk].
    assert (Hck : (cursor p <= k)%nat)
      by (eapply beyond_the_done_prefix; eauto).
    cbn. rewrite Hk. unfold bind, run_task, ret.
    pose proof (keeps_fetch_article_content W a s) as Hkeep.
    destruct (fetch_article_content W a s) as [o s'] eqn:Hf.
    eexists. eexists. split; [reflexivity|]. split.
    + constructor; cbn.
      * now rewrite set_status_articles.
      * now rewrite set_status_length.
      * now rewrite set_status_firstn.
      * now rewrite set_status_firstn.
      * rewrite set_status_firstn by assumption. rewrite <- He.
        destruct Hkeep as [_ _ (l & Hl & Hq & _)]. cbn in Hl.
        rewrite Hl, article_errors_app, (article_errors_none _ Hq). lia.
      * eapply set_status_Forall; eauto. cbn.
        intros o' Ho'. injection Ho' as <-. exists s. now rewrite Hf.
      * apply NoDup_app; [assumption|repeat constructor; intros []|].
        intros j Hj [<-|[]]. apply Hi in Hj.
        destruct Hj as (a' & o' & Hj). congruence.
      * intros j. rewrite in_app_iff, Hi. cbn.
        destruct (Nat.eq_dec j k) as [->|Hne].
        -- rewrite (set_status_same _ _ _ _ _ Hk). split; eauto.
        -- rewrite set_status_other by assumption.
           split; [intros [H|[H|[]]]; [assumption|congruence]|auto].
    + unfold remaining. cbn. rewrite set_status_length.
      pose proof (set_status_weight k (Done o) Running a (tasks p) Hk) as Hw.
      unfold weight in Hw at 2 4. cbn in Hw. unfold list_sum in *. lia.
  - destruct Hen as (-> & a & o & Hk).
    assert (Hlt : (cursor p < length (tasks p))%nat).
    { apply nth_error_Some. congruence. }
    cbn. rewrite Hk. destruct o as [e|a'].
    + unfold bind, logger_error, set_errors_occurred, ret. cbn.
      eexists. eexists. split; [reflexivity|]. split.
      * constructor;
          cbn [tasks cursor processed_articles completed logged with_logged
               with_errors_occurred with_history];
          auto.
        -- rewrite (firstn_succ _ _ _ Hk), forallb_app, Hd. reflexivity.
        -- rewrite (firstn_succ _ _ _ Hk), successes_app. cbn [successes].
           rewrite app_nil_r. exact Hp.
        -- rewrite (firstn_succ _ _ _ Hk), failures_app, article_errors_app.
           rewrite He. cbn. lia.
      * unfold remaining. cbn [tasks cursor]. lia.
    + unfold bind, emit, ret. cbn.
      eexists. eexists. split; [reflexivity|]. split.
      * constructor;
          cbn [tasks cursor processed_articles completed logged with_logged
               with_errors_occurred with_history];
          auto.
        -- rewrite (firstn_succ _ _ _ Hk), forallb_app, Hd. reflexivity.
        -- rewrite (firstn_succ _ _ _ Hk), successes_app, Hp. reflexivity.
        -- rewrite (firstn_succ _ _ _ Hk), failures_app. rewrite He. cbn. lia.
      * unfold remaining. cbn [tasks cursor]. lia.
Qed.

Lemma pool_step_inv (p : pool) (s : scraper) :
  pool_inv p s -> remaining p <> 0%nat ->
  exists p' s',
    pool_step W workers p s = (inr p', s') /\ pool_inv p' s' /\
    S (remaining p') = remaining p.
Proof.
  intros Hinv Hrem. unfold pool_step.
  destruct (enabled workers p) as [|a rest] eqn:Hen.
  - exfalso. apply Hrem. now apply enabled_progress.
  - unfold bind, consult.
    set (act := nth (scheduler W (ticks s) mod length (a :: rest)) (a :: rest) a).
    assert (Hin : In act (enabled workers p)).
    { rewrite Hen. apply nth_In. apply Nat.mod_upper_bound. discriminate. }
    destruct (perform_inv act p (with_ticks (S (ticks s)) s))
      as (p' & s' & Hperf & Hinv' & Hrem'); [|exact Hin|eauto].
    destruct Hinv. constructor; auto.
Qed.

Lemma pool_run_inv (fuel : nat) (p : pool) (s : scraper) :
  pool_inv p s -> remaining p = fuel ->
  exists p' s',
    pool_run W fuel workers p s = (inr p', s') /\ pool_inv p' s' /\
    remaining p' = 0%nat.
Proof.
  revert p s; induction fuel as [|fuel IH]; intros p s Hinv Hrem.
  - exists p, s. auto.
  - destruct (pool_step_inv p s Hinv) as (p1 & s1 & Hstep & Hinv1 & Hrem1);
      [lia|].
    destruct (IH p1 s1 Hinv1) as (p' & s' & Hrun & Hinv' & Hrem'); [lia|].
    exists p', s'. cbn [pool_run]. unfold bind. rewrite Hstep. auto.
Qed.

End Pool.

(** ** process_category: one outcome per item, in the order of the listing *)

Section Category.

Variable W : World.

(** The [with] block of [process_category] always comes to its end, with
    every future done and collected. *)
Lemma run_pool_final (workers : Z) (news_list : list article) (s : scraper) :
  0 < workers ->
  exists p s',
    run_pool W workers news_list s = (inr p, s') /\
    pool_inv W news_list (article_errors (logged s)) p s' /\
    cursor p = length (tasks p) /\
    firstn (cursor p) (tasks p) = tasks p /\
    forallb is_done (tasks p) = true /\
    extends not_write any_record s s'.
Proof.
  intros Hw. unfold run_pool.
  destruct (workers <=? 0) eqn:E; [apply Z.leb_le in E; lia|].
  destruct (pool_run_inv W workers Hw news_list (article_errors (logged s))
              (3 * length news_list) (initial_pool news_list) s)
    as (p & s' & Hrun & Hinv & Hrem).
  { now apply initial_pool_inv. }
  { apply initial_pool_remaining. }
  exists p, s'. split; [exact Hrun|]. split; [exact Hinv|].
  pose proof (inv_cursor _ _ _ _ _ Hinv) as Hc.
  unfold remaining in Hrem.
  assert (Hcur : cursor p = length (tasks p)) by lia.
  assert (Hall : firstn (cursor p) (tasks p) = tasks p)
    by (apply firstn_all2; lia).
  split; [exact Hcur|]. split; [exact Hall|]. split.
  - rewrite <- Hall at 1. exact (inv_collected _ _ _ _ _ Hinv).
  - pose proof (keeps_pool_run W (3 * length news_list) workers
                  (initial_pool news_list) s) as Hk.
    rewrite Hrun in Hk. exact Hk.
Qed.

(** [process_category] after a listing that came back and a pool that
    came to its end: what is left is the output and the last log line. *)
Lemma process_category_after_pool (category : string) (s : scraper)
      (news_list : list article) (s1 : scraper) (p : pool) (s2 : scraper) :
  get_news_list W category s = (inr news_list, s1) ->
  run_pool W (max_workers (config s1)) news_list s1 = (inr p, s2) ->
  process_category W category s
  = match (if use_csv (config s1)
           then save_to_csv W (processed_articles p)
                            (artifact_path (config s1) category)
           else json_dump W (processed_articles p)
                          (artifact_path (config s1) category)) s2 with
    | (inr _, s3) =>
        logger_info
          (SuccessfullyProcessed (length (processed_articles p)) category) s3
    | (inl e, s3) =>
        (logger_error (ErrorProcessingCategory category e) ;;;
         set_errors_occurred) s3
    end.
Proof.
  intros Hl Hp. unfold process_category, try_except, bind at 1.
  rewrite Hl. unfold bind at 1. unfold get_config at 1.
  unfold bind at 1. rewrite Hp. unfold bind at 1. unfold artifact_path.
  destruct (use_csv (config s1));
    match goal with
    | |- context [match ?m s2 with _ => _ end] =>
        destruct (m s2) as [[e|[]] s3]
    end; reflexivity.
Qed.

Lemma all_fail_no_success (ts : list (article * status)) :
  Forall (fun t => forall o, snd t = Done o ->
              exists s1, o = fst (fetch_article_content W (fst t) s1)) ts ->
  (forall a, In a (map fst ts) -> page_fails W (link a) = true) ->
  successes ts = [].
Proof.
  induction ts as [|[a st] ts IH]; intros Hf Hp; [reflexivity|].
  inversion Hf as [|? ? Ha Hf']; subst.
  assert (IH' : successes ts = []).
  { apply IH; [exact Hf'|]. intros b Hb. apply Hp. now right. }
  destruct st as [| |[e|a']]; cbn; auto.
  exfalso. destruct (Ha _ eq_refl) as [s1 Hs1]. symmetry in Hs1.
  apply fetch_returns in Hs1.
  destruct Hs1 as (q & qs & n & code & body & _ & _ & _ & _ & _ & Hpage & Hcode
                   & Hext & _).
  specialize (Hp a (or_introl eq_refl)). unfold page_fails in Hp.
  cbn [fst] in Hpage. rewrite Hpage, Hcode, Hext in Hp. discriminate.
Qed.


End Category.

Section Outcomes.

Variable W : World.





(** C5, as amended. In whatever order the scheduler lets the tasks finish,
    the articles collected are the returned ones in the order in which the
    tasks were submitted, which is the order of the listing: the [k]-th
    future belongs to the [k]-th item, and a returned article carries the
    title and the address of its item. *)
Theorem collected_in_submission_order (workers : Z)
        (news_list : list article) (s : scraper) :
  0 < workers ->
  exists p s',
    run_pool W workers news_list s = (inr p, s') /\
    map fst (tasks p) = news_list /\
    processed_articles p = successes (tasks p) /\
    Forall (fun t => forall a', snd t = Done (inr a') ->
                title a' = title (fst t) /\ link a' = link (fst t))
           (tasks p).
Proof.
  intros Hw.
  destruct (run_pool_final W _ news_list s Hw)
    as (p & s' & Hrun & Hinv & Hcur & Hall & Hd & Hext).
  exists p, s'. split; [exact Hrun|].
  split; [exact (inv_articles _ _ _ _ _ Hinv)|]. split.
  - rewrite (inv_processed _ _ _ _ _ Hinv), Hall. reflexivity.
  - pose proof (inv_outcomes _ _ _ _ _ Hinv) as Ho.
    rewrite Forall_forall in *. intros [a st] Ht a' Hst. cbn in Hst. subst st.
    destruct (Ho _ Ht _ eq_refl) as [s0 Hs0]. symmetry in Hs0.
    apply fetch_returns in Hs0.
    destruct Hs0 as (q & qs & n & code & body & _ & H1 & _ & _ & H2 & _).
    auto.
Qed.

End Outcomes.


Lemma collected_in_submission_order_witness :
  exists p s',
    run_pool good_pages_world 2
             [example_article "1"; example_article "2"] example_scraper
    = (inr p, s') /\
    processed_articles p = successes (tasks p).
Proof.
  destruct (collected_in_submission_order
              good_pages_world 2
              [example_article "1"; example_article "2"] example_scraper)
    as (p & s' & Hrun & _ & Hp & _).
  - reflexivity.
  - exists p, s'. split; [exact Hrun|exact Hp].
Defined.

(** C5, as stated, fails: with two workers the second task may finish
    first, and the articles are still collected first item first. *)
Lemma not_collected_in_completion_order :
  exists p s',
    run_pool good_pages_world 2
             [example_article "1"; example_article "2"] example_scraper
    = (inr p, s') /\
    completed p = [1; 0]%nat /\
    map link (processed_articles p)
    = ["https://tass.com/politics/1"; "https://tass.com/politics/2"] /\
    ~ collected_in_completion_order p.
Proof.
  eexists. eexists. split; [vm_compute; reflexivity|].
  split; [reflexivity|]. split; [reflexivity|].
  intros H. vm_compute in H. discriminate H.
Qed.

(** ** Output when every item fails *)

Section Output.

Variable W : World.

(** C10. [save_to_csv] on an empty sequence returns at once and leaves the
    scraper as it was.  So when the listing of a category comes back and
    every item fails, [process_category] in CSV mode writes no artifact at
    all, while in JSON mode (when the file can be opened) the last event of
    the category is the writing of an artifact that holds the empty
    list. *)
Theorem no_csv_artifact_when_every_item_fails (category : string)
        (s : scraper) (news_list : list article) (s1 : scraper) :
  get_news_list W category s = (inr news_list, s1) ->
  0 < max_workers (config s) ->
  (forall a, In a news_list -> page_fails W (link a) = true) ->
  (forall output_path s0, save_to_csv W [] output_path s0 = (inr tt, s0)) /\
  exists evs,
    forallb not_write evs = true /\
    history (snd (process_category W category s))
    = history s ++ evs
      ++ (if use_csv (config s) then []
          else if fs_ok W (artifact_path (config s) category)
               then [EvWriteJson (artifact_path (config s) category) []]
               else []).
Proof.
  intros Hl Hw Hfail. split; [reflexivity|].
  pose proof (keeps_get_news_list W category s) as Hk.
  rewrite Hl in Hk. cbn [snd] in Hk.
  destruct Hk as [Hc (e1 & He1 & Hp1) _].
  rewrite <- Hc in Hw |- *.
  destruct (run_pool_final W _ news_list s1 Hw)
    as (p & s2 & Hrun & Hinv & Hcur & Hall & Hd & [_ (e2 & He2 & Hp2) _]).
  assert (Hnone : processed_articles p = []).
  { rewrite (inv_processed _ _ _ _ _ Hinv), Hall.
    apply (all_fail_no_success W); [exact (inv_outcomes _ _ _ _ _ Hinv)|].
    now rewrite (inv_articles _ _ _ _ _ Hinv). }
  rewrite (process_category_after_pool W _ _ _ _ _ _ Hl Hrun), Hnone.
  exists (e1 ++ e2). rewrite forallb_app, Hp1, Hp2. split; [reflexivity|].
  rewrite <- !app_assoc, (app_assoc (history s)), <- He1, (app_assoc (history s1)), <- He2.
  destruct (use_csv (config s1)).
  - cbn. now rewrite app_nil_r.
  - unfold json_dump.
    destruct (fs_ok W (artifact_path (config s1) category)); cbn;
      [reflexivity|now rewrite app_nil_r].
Qed.

End Output.

Lemma no_csv_artifact_when_every_item_fails_witness :
  forallb not_write
    (new_events (process_category empty_pages_world "politics") csv_scraper)
  = true.
Proof.
  destruct (no_csv_artifact_when_every_item_fails
              empty_pages_world "politics" csv_scraper
              [example_article "1"; example_article "2"; example_article "3"]
              (snd (get_news_list empty_pages_world "politics" csv_scraper)))
    as (_ & evs & Hnw & Hh).
  - vm_compute. reflexivity.
  - reflexivity.
  - intros a [<-|[<-|[<-|[]]]]; reflexivity.
  - unfold new_events. rewrite Hh. cbn [use_csv config csv_scraper].
    change (use_csv (config csv_scraper)) with true. cbn iota.
    rewrite app_nil_r, skipn_app, skipn_all, Nat.sub_diag. exact Hnw.
Defined.

(** ** run: the final report and the failure flag *)

Section Run.

Variable W : World.




Lemma process_category_returns (category : string) (s : scraper) :
  fst (process_category W category s) = inr tt.
Proof.
  unfold process_category, try_except.
  match goal with
  | |- fst (match ?m s with _ => _ end) = _ => destruct (m s) as [[e|[]] s1]
  end; reflexivity.
Qed.

Lemma for_categories_step (category : string) (rest : list string)
      (s : scraper) :
  exists s1,
    for_categories W (category :: rest) s = for_categories W rest s1 /\
    extends any_event any_record s s1 /\
    (dict_mem CATEGORY_MAP category = false -> errors_occurred s1 = true).
Proof.
  cbn [for_categories]. unfold bind at 1.
  destruct (dict_mem CATEGORY_MAP category) eqn:E.
  - unfold bind at 1.
    pose proof (process_category_returns category s) as Hr.
    pose proof (keeps_process_category W category s) as Hk.
    destruct (process_category W category s) as [r s1]. cbn in Hr, Hk.
    subst r. cbn. eexists. split; [reflexivity|]. split; [|discriminate].
    eapply extends_trans; [exact Hk|].
    apply (keeps_emit any_event any_record (EvStdout EmptyLine) eq_refl s1).
  - pose proof (keeps_failure_last any_event any_record
                  (InvalidCategory category) eq_refl s) as Hk.
    unfold bind, logger_error, set_errors_occurred in *. cbn in *.
    eexists. split; [reflexivity|]. split; [exact Hk|reflexivity].
Qed.

Lemma for_categories_returns (cats : list string) (s : scraper) :
  fst (for_categories W cats s) = inr tt.
Proof.
  revert s; induction cats as [|category rest IH]; intros s; [reflexivity|].
  destruct (for_categories_step category rest s) as (s1 & -> & _). apply IH.
Qed.



End Run.


(** ** get_top_words *)

Section Words.











End Words.

Section Precedes.

Context {A : Type}.



Lemma precedes_In (a b : A) (l : list A) :
  precedes a b l -> In a l /\ In b l.
Proof.
  intros (l1 & l2 & -> & Hb). split; apply in_or_app; right; cbn; auto.
Qed.





End Precedes.

Section Sorting.






End Sorting.

Section Counting.










End Counting.

Section TopWords.

Variable c : NewsScraperConfig.
Hypothesis requested : include_top_words c = true.




End TopWords.


(** * Further properties *)

(** ** validate and main *)


Section Further.

Variable W : World.

Lemma run_returns (s : scraper) :
  validate (config s) = inr tt -> fst (run W s) = inr tt.
Proof.
  intros Hv. unfold run, bind at 1, get_config.
  unfold bind at 1, lift. rewrite Hv. unfold bind at 1.
  pose proof (for_categories_returns W (categories (config s)) s) as Hr.
  destruct (for_categories W (categories (config s)) s) as [r s1].
  cbn [fst] in Hr. subst r. unfold report.
  destruct (negb (errors_occurred s1)); reflexivity.
Qed.

Lemma init_returns (s : scraper) :
  fst (__init__ W s) = inr tt <->
  fs_ok W (OutputDir (output_dir (config s))) = true /\
  fs_ok W (LogsDir (output_dir (config s))) = true /\
  fs_ok W (LogFile (output_dir (config s))) = true.
Proof.
  unfold __init__, mkdir, open_log. unfold_monad.
  repeat (split_match; cbn); split; try discriminate; auto;
    intros (H1 & H2 & H3); congruence.
Qed.

(** X2. The exit status of [main] tells whether the run could start, not
    whether it went well: [main] returns normally exactly when the
    constructor could make its directories and open its log file and the
    configuration is valid, whatever failed afterwards; otherwise it exits
    with status 1. *)
Theorem main_exit_status (c : NewsScraperConfig) :
  (fst (main W c) = None <->
   (fs_ok W (OutputDir (output_dir c)) = true /\
    fs_ok W (LogsDir (output_dir c)) = true /\
    fs_ok W (LogFile (output_dir c)) = true) /\
   validate c = inr tt) /\
  (fst (main W c) = None \/ fst (main W c) = Some 1).
Proof.
  pose proof (init_returns (fresh c)) as Hi. cbn [config fresh] in Hi.
  pose proof (init_config W (fresh c)) as Hc. cbn [config fresh] in Hc.
  unfold main, bind.
  destruct (__init__ W (fresh c)) as [[e|[]] s1]; cbn [fst snd] in *.
  - split; [|now right]. split; [discriminate|].
    intros [H _]. apply Hi in H. discriminate.
  - destruct (validate c) as [e|[]] eqn:Hv.
    + assert (Hrun : run W s1 = (inl e, s1)).
      { unfold run. unfold_monad. now rewrite Hc, Hv. }
      rewrite Hrun. cbn. split; [|now right]. split; [discriminate|].
      intros [_ H]. discriminate.
    + assert (Hrun : fst (run W s1) = inr tt)
        by (apply run_returns; now rewrite Hc).
      destruct (run W s1) as [r s2]. cbn in Hrun. subst r. cbn.
      split; [|now left]. split; [|reflexivity].
      intros _. split; [|reflexivity]. now apply Hi.
Qed.


(** ** get_news_list *)

Definition listing_events (ev : event) : bool := is_identity ev || is_post ev.

Lemma keeps_get_news_list_events (category : string) :
  keeps listing_events any_record (get_news_list W category).
Proof.
  unfold get_news_list, session_post, raise_for_status.
  repeat keeps_step.
Qed.

Lemma new_events_app {A : Type} (m : M A) (s : scraper) (evs : list event) :
  history (snd (m s)) = history s ++ evs -> new_events m s = evs.
Proof.
  intros H. unfold new_events.
  now rewrite H, skipn_app, skipn_all, Nat.sub_diag.
Qed.

(** X3. [process_category] keeps every failure to itself: it always returns
    normally.  When the listing call raises, the exception is logged as the
    category's error, the failure flag goes up, and nothing else happens: no
    article is requested, nothing is slept, no artifact is written. *)
Theorem process_category_contains_failures (category : string)
        (s : scraper) :
  fst (process_category W category s) = inr tt /\
  (forall e s1,
      get_news_list W category s = (inl e, s1) ->
      errors_occurred (snd (process_category W category s)) = true /\
      logged (snd (process_category W category s))
      = logged s1 ++ [(ERROR, ErrorProcessingCategory category e)] /\
      history (snd (process_category W category s)) = history s1 /\
      forallb listing_events (new_events (process_category W category) s)
      = true).
Proof.
  split; [apply process_category_returns|].
  intros e s1 Hl.
  pose proof (keeps_get_news_list_events category s) as Hk.
  rewrite Hl in Hk. destruct Hk as [_ (evs & He & Hp) _]. cbn [snd] in He.
  assert (Hpc : process_category W category s
                = (logger_error (ErrorProcessingCategory category e) ;;;
                   set_errors_occurred) s1).
  { unfold process_category, try_except, bind at 1. now rewrite Hl. }
  assert (Hh : history (snd (process_category W category s)) = history s1)
    by now rewrite Hpc.
  repeat split; try (now rewrite Hpc).
  rewrite (new_events_app _ _ evs); [exact Hp|]. now rewrite Hh.
Qed.

(** X4. [get_news_list] looks the category up before its [try] block, after it
    has taken an identity from the rotator: for a name that is not in
    [CATEGORY_MAP] it raises [KeyError] with no request sent, nothing logged
    as an error and the failure flag untouched, and the identity is used
    up. *)
Theorem unknown_category_raises_before_any_request (category : string)
        (s : scraper) :
  balanced (usage_counts s) ->
  dict_get CATEGORY_MAP category = None ->
  exists ua s',
    get_news_list W category s = (inl (KeyError category), s') /\
    history s' = history s ++ [EvIdentity ua] /\
    logged s' = logged s ++ [(INFO, FetchingNewsList category)] /\
    errors_occurred s' = errors_occurred s /\
    total (dict_values (usage_counts s'))
    = total (dict_values (usage_counts s)) + 1.
Proof.
  intros Hb Hm.
  destruct (get_next_user_agent_balanced (random_index W (ticks s)) _ Hb)
    as (ua & counts & Hua & _ & _ & Ht).
  unfold get_news_list, next_user_agent. unfold_monad.
  cbn [usage_counts ticks with_logged]. rewrite Hua, Hm. cbn.
  exists ua. eexists. split; [reflexivity|]. cbn. auto.
Qed.

Lemma items_to_articles_fields (items : list listing_item)
      (arts : list article) :
  items_to_articles W items = inr arts ->
  Forall2 (fun it a =>
             item_title it = Some (title a) /\
             item_lead it = Some (description a) /\
             (exists d, item_date it = Some d /\ date a = fromtimestamp W d) /\
             content a = None /\ top_words a = None)
          items arts.
Proof.
  revert arts; induction items as [|it items IH]; intros arts H; simpl in H.
  - injection H as <-. constructor.
  - destruct (item_to_article W it) as [e|a] eqn:Ha; [discriminate|].
    destruct (items_to_articles W items) as [e|l]; [discriminate|].
    injection H as <-. constructor; [|now apply IH].
    unfold item_to_article in Ha.
    destruct (item_title it), (item_lead it), (item_date it) as [d|],
      (item_link it); try discriminate.
    injection Ha as <-. cbn. repeat split. now exists d.
Qed.

(** X5. A call of [get_news_list] that returns has taken one identity, sent
    one POST carrying that identity, the section of the category and
    [headlines_per_category] as the limit, logged no error and left the
    failure flag alone; and its articles are the items of the response, one
    for one and in order, with [lead] under [description], the date
    formatted, and no [content] or [top_words] yet. *)
Theorem listing_mirrors_the_response (category : string) (s : scraper)
        (arts : list article) (s' : scraper) :
  get_news_list W category s = (inr arts, s') ->
  exists ua sectionId n code items,
    dict_get CATEGORY_MAP category = Some sectionId /\
    categoryNewsList W sectionId (headlines_per_category (config s))
    = Reply n code (Json (Some items)) /\
    (400 <=? code) && (code <? 600) = false /\
    history s'
    = history s ++ [EvIdentity ua;
                    EvPost listing_url ua sectionId
                           (headlines_per_category (config s)) n] /\
    logged s' = logged s ++ [(INFO, FetchingNewsList category)] /\
    errors_occurred s' = errors_occurred s /\
    Forall2 (fun it a =>
               item_title it = Some (title a) /\
               item_lead it = Some (description a) /\
               (exists d, item_date it = Some d /\
                          date a = fromtimestamp W d) /\
               content a = None /\ top_words a = None)
            items arts.
Proof.
  unfold get_news_list, next_user_agent, session_post. unfold_monad.
  destruct (dict_get CATEGORY_MAP category) as [sec|] eqn:Hsec;
    repeat (split_match; cbn); intros H; try discriminate.
  injection H as <- <-. cbn.
  match goal with
  | Hi : items_to_articles _ _ = inr _ |- _ =>
      apply items_to_articles_fields in Hi
  end.
  do 5 eexists. repeat split; try eassumption; try reflexivity.
  now rewrite <- app_assoc.
Qed.

(** [get_news_list], step by step. *)
Lemma get_news_list_eq (category : string) (s : scraper) :
  get_news_list W category s
  = let s0 := with_logged (logged s ++ [(INFO, FetchingNewsList category)]) s in
    match get_next_user_agent (random_index W (ticks s)) (usage_counts s) with
    | inl e => (inl e, s0)
    | inr (ua, counts) =>
        let s1 := identified ua counts s0 in
        match dict_get CATEGORY_MAP category with
        | None => (inl (KeyError category), s1)
        | Some sectionId =>
            let r := categoryNewsList W sectionId
                                      (headlines_per_category (config s)) in
            let s2 :=
              with_history
                (history s1 ++ [EvPost listing_url ua sectionId
                                       (headlines_per_category (config s))
                                       (attempts_of r)]) s1 in
            match listing_result W r with
            | inr arts => (inr arts, s2)
            | inl e => (inl e, failed (listing_error category e) s2)
            end
        end
    end.
Proof.
  unfold get_news_list, next_user_agent, session_post, listing_result,
    listing_error, failed, identified.
  unfold_monad. cbn [usage_counts ticks with_logged].
  destruct (get_next_user_agent _ _) as [e|[ua counts]]; [reflexivity|].
  destruct (dict_get CATEGORY_MAP category) as [sec|]; [|reflexivity].
  cbn.
  destruct (categoryNewsList W sec (headlines_per_category (config s)))
    as [n msg|n code body]; [reflexivity|].
  cbn. destruct ((400 <=? code) && (code <? 600)); [reflexivity|].
  destruct body as [|[items|]]; reflexivity.
Qed.

(** X6. When [get_news_list] raises, either it failed before its request was
    sent (no identity could be had, or the category is unknown), with no
    error logged and the flag untouched; or the request was sent, and the
    exception is logged once, as a network error if it is a
    [RequestException] and as a processing error otherwise, the failure flag
    is up, and the same exception is raised again. *)
Theorem listing_failure_is_logged_and_raised (category : string)
        (s : scraper) (e : exn) (s' : scraper) :
  get_news_list W category s = (inl e, s') ->
  (forallb (fun ev => negb (is_post ev))
           (new_events (get_news_list W category) s) = true /\
   logged s' = logged s ++ [(INFO, FetchingNewsList category)] /\
   errors_occurred s' = errors_occurred s) \/
  (exists ua sectionId n,
      dict_get CATEGORY_MAP category = Some sectionId /\
      history s'
      = history s ++ [EvIdentity ua;
                      EvPost listing_url ua sectionId
                             (headlines_per_category (config s)) n] /\
      logged s'
      = logged s ++ [(INFO, FetchingNewsList category);
                     (ERROR, listing_error category e)] /\
      errors_occurred s' = true).
Proof.
  intros H.
  assert (Hn : new_events (get_news_list W category) s
               = skipn (length (history s)) (history s'))
    by (unfold new_events; now rewrite H).
  rewrite Hn. clear Hn. rewrite get_news_list_eq in H. cbv zeta in H.
  destruct (get_next_user_agent _ _) as [e0|[ua counts]].
  { injection H as <- <-. left. cbn. rewrite skipn_all. auto. }
  destruct (dict_get CATEGORY_MAP category) as [sec|].
  2:{ injection H as <- <-. left. cbn.
      rewrite skipn_app, skipn_all, Nat.sub_diag. auto. }
  destruct (listing_result W _) as [e0|arts]; [|discriminate].
  injection H as <- <-. right. exists ua, sec. eexists.
  split; [reflexivity|]. unfold failed, identified. cbn.
  rewrite <- !app_assoc. repeat split; reflexivity.
Qed.




(** ** fetch_article_content *)

(** [fetch_article_content], step by step. *)
Lemma fetch_article_content_eq (a : article) (s : scraper) :
  fetch_article_content W a s
  = match get_next_user_agent (random_index W (ticks s)) (usage_counts s) with
    | inl e => (inl e, s)
    | inr (ua, counts) =>
        let d := (min_delay (config s)
                  + (max_delay (config s) - min_delay (config s))
                    * random_unit W (S (ticks s)))%Q in
        let s1 := with_ticks (S (S (ticks s))) (identified ua counts s) in
        if Qle_bool 0 d then
          let r := page W (link a) in
          let s2 :=
            with_history
              ((history s1 ++ [EvSleep d])
               ++ [EvGet (link a) (Some ua) (attempts_of r)]) s1 in
          match page_result (config s) a r with
          | inr a' => (inr a', s2)
          | inl e => (inl e, failed (fetch_error (link a) e) s2)
          end
        else (inl (ValueError "sleep length must be non-negative"), s1)
    end.
Proof.
  unfold fetch_article_content, next_user_agent, random_uniform, time_sleep,
    session_get, page_result, fetch_error, failed, identified.
  unfold_monad.
  destruct (get_next_user_agent _ _) as [e|[ua counts]]; [reflexivity|].
  cbn.
  destruct (Qle_bool 0 _); [|reflexivity]. cbn.
  destruct (page W (link a)) as [n msg|n code body]; [reflexivity|].
  cbn. destruct ((400 <=? code) && (code <? 600)); [reflexivity|].
  cbn. destruct (extract_contents body); reflexivity.
Qed.


(** X9. When [fetch_article_content] raises, either it failed before its
    request was sent (no identity, or a negative delay refused by
    [time.sleep]), with nothing logged and the failure flag untouched; or
    the request was sent, and the exception is logged once, as a network
    error if it is a [RequestException] (the transport gave up, or the
    status is 4xx or 5xx) and as a processing error otherwise (no text
    block), the failure flag is up and the same exception is raised
    again. *)
Theorem fetch_failure_is_logged_and_raised (a : article) (s : scraper)
        (e : exn) (s' : scraper) :
  fetch_article_content W a s = (inl e, s') ->
  (forallb (fun ev => negb (is_article_request ev))
           (new_events (fetch_article_content W a) s) = true /\
   logged s' = logged s /\
   errors_occurred s' = errors_occurred s) \/
  (exists ua d,
      history s'
      = history s ++ [EvIdentity ua; EvSleep d;
                      EvGet (link a) (Some ua)
                            (attempts_of (page W (link a)))] /\
      logged s' = logged s ++ [(ERROR, fetch_error (link a) e)] /\
      errors_occurred s' = true /\
      is_request_exception e
      = match page W (link a) with
        | Unreachable _ _ => true
        | Reply _ code _ => (400 <=? code) && (code <? 600)
        end).
Proof.
  intros H.
  assert (Hn : new_events (fetch_article_content W a) s
               = skipn (length (history s)) (history s'))
    by (unfold new_events; now rewrite H).
  rewrite Hn. clear Hn. rewrite fetch_article_content_eq in H. cbv zeta in H.
  destruct (get_next_user_agent _ _) as [e0|[ua counts]].
  { injection H as <- <-. left. rewrite skipn_all. auto. }
  destruct (Qle_bool 0 _).
  2:{ injection H as <- <-. left. unfold identified. cbn.
      rewrite skipn_app, skipn_all, Nat.sub_diag. auto. }
  right. exists ua. eexists.
  unfold page_result in H.
  destruct (page W (link a)) as [n msg|n code body].
  { injection H as <- <-. unfold failed, identified. cbn.
    rewrite <- !app_assoc. repeat split; reflexivity. }
  destruct ((400 <=? code) && (code <? 600)).
  { injection H as <- <-. unfold failed, identified. cbn.
    rewrite <- !app_assoc. repeat split; reflexivity. }
  destruct (extract_contents body); [|discriminate].
  injection H as <- <-. unfold failed, identified. cbn.
  rewrite <- !app_assoc. repeat split; reflexivity.
Qed.


End Further.

(** ** The rotator: which identity comes next *)

Section Rotation.

Lemma dict_get_set {V : Type} (d : dict V) (k k' : string) (v : V) :
  dict_get (dict_set d k v) k'
  = if String.eqb k k' then Some v else dict_get d k'.
Proof.
  induction d as [|[k0 v0] d IH]; cbn.
  - reflexivity.
  - destruct (String.eqb_spec k0 k) as [->|Hne]; cbn.
    + destruct (String.eqb_spec k k'); reflexivity.
    + rewrite IH. destruct (String.eqb_spec k0 k') as [->|];
        [|reflexivity].
      destruct (String.eqb_spec k k') as [->|]; [now elim Hne|reflexivity].
Qed.

Lemma dict_get_value {V : Type} (d : dict V) (k : string) (v : V) :
  dict_get d k = Some v -> In v (dict_values d).
Proof.
  induction d as [|[k0 v0] d IH]; cbn; [discriminate|].
  destruct (String.eqb k0 k); intros H.
  - injection H as ->. now left.
  - right. now apply IH.
Qed.

Lemma get_next_user_agent_spec (choice : nat) (counts : dict Z) :
  NoDup (dict_keys counts) ->
  match get_next_user_agent choice counts with
  | inl e =>
      counts = [] /\ e = ValueError "min() arg is an empty sequence"
  | inr (ua, counts') =>
      exists m,
        py_min (dict_values counts) = Some m /\
        dict_get counts ua = Some m /\
        dict_get counts' ua = Some (m + 1) /\
        (forall k, k <> ua -> dict_get counts' k = dict_get counts k) /\
        dict_keys counts' = dict_keys counts
  end.
Proof.
  intros Hnd. unfold get_next_user_agent.
  destruct (py_min (dict_values counts)) as [m|] eqn:Hm.
  2:{ destruct counts as [|[k v] counts]; [auto|].
      cbn in Hm. destruct (py_min _); discriminate. }
  destruct (py_min_spec _ _ Hm) as [Hin _].
  pose proof (least_used_nonempty counts m Hin) as Hlu.
  destruct (nth_error (least_used counts m)
              (choice mod length (least_used counts m))) as [ua|] eqn:Hnth.
  2:{ exfalso. apply nth_error_None in Hnth.
      assert (length (least_used counts m) <> 0%nat)
        by (destruct (least_used counts m); simpl; congruence).
      pose proof (Nat.mod_upper_bound choice _ H). lia. }
  apply nth_error_In in Hnth. apply least_used_in in Hnth.
  pose proof (dict_get_in _ _ _ Hnd Hnth) as Hget. rewrite Hget.
  exists m. split; [reflexivity|]. split; [exact Hget|]. split; [|split].
  - now rewrite dict_get_set, String.eqb_refl.
  - intros k Hk. rewrite dict_get_set.
    destruct (String.eqb_spec ua k) as [->|]; [now elim Hk|reflexivity].
  - eapply dict_set_keys_present. exact Hget.
Qed.

(** X10. The contract of [get_next_user_agent]: on an empty pool it raises the
    [ValueError] of [min]; otherwise it returns an identity whose usage
    count is the minimum over the pool, adds one to that count, and leaves
    every other count and the set of identities as they were. *)
Theorem next_agent_is_a_least_used_one (choice : nat) (counts : dict Z) :
  NoDup (dict_keys counts) ->
  match get_next_user_agent choice counts with
  | inl e =>
      counts = [] /\ e = ValueError "min() arg is an empty sequence"
  | inr (ua, counts') =>
      exists m,
        py_min (dict_values counts) = Some m /\
        dict_get counts ua = Some m /\
        dict_get counts' ua = Some (m + 1) /\
        (forall k, k <> ua -> dict_get counts' k = dict_get counts k) /\
        dict_keys counts' = dict_keys counts
  end.
Proof. exact (get_next_user_agent_spec choice counts). Qed.

(** X11. The same identity comes twice in a row only when it was the one least
    used: if two calls in a row give the same identity, every other
    identity had a strictly larger usage count before the first call. *)
Theorem no_reuse_unless_unique_minimum (c1 c2 : nat)
        (counts counts1 counts2 : dict Z) (ua : string) :
  NoDup (dict_keys counts) ->
  get_next_user_agent c1 counts = inr (ua, counts1) ->
  get_next_user_agent c2 counts1 = inr (ua, counts2) ->
  exists m,
    dict_get counts ua = Some m /\
    forall k n, dict_get counts k = Some n -> k <> ua -> m < n.
Proof.
  intros Hnd H1 H2.
  pose proof (get_next_user_agent_spec c1 counts Hnd) as A1.
  rewrite H1 in A1. destruct A1 as (m & _ & Hget & Hset & Hother & Hkeys).
  assert (Hnd1 : NoDup (dict_keys counts1)) by now rewrite Hkeys.
  pose proof (get_next_user_agent_spec c2 counts1 Hnd1) as A2.
  rewrite H2 in A2. destruct A2 as (m1 & Hmin1 & Hget1 & _).
  assert (m1 = m + 1) by congruence. subst m1.
  exists m. split; [exact Hget|]. intros k n Hk Hne.
  rewrite <- (Hother k Hne) in Hk. apply dict_get_value in Hk.
  destruct (py_min_spec _ _ Hmin1) as [_ Hle]. specialize (Hle n Hk). lia.
Qed.

End Rotation.

(** ** The rotator through a run *)

Section Rotated.

Lemma rotated_frame (s s' : scraper) :
  usage_counts s' = usage_counts s -> rotated s s'.
Proof.
  intros H Hb. rewrite H.
  split; [exact Hb|split; [reflexivity|apply Z.le_refl]].
Qed.

Lemma rotated_trans (s1 s2 s3 : scraper) :
  rotated s1 s2 -> rotated s2 s3 -> rotated s1 s3.
Proof.
  intros H12 H23 Hb. destruct (H12 Hb) as (Hb2 & Hk2 & Ht2).
  destruct (H23 Hb2) as (Hb3 & Hk3 & Ht3).
  split; [exact Hb3|]. split; [congruence|lia].
Qed.

(** A method rotates when every call of it does. *)
Definition rotates {A : Type} (m : M A) : Prop :=
  forall s, rotated s (snd (m s)).

Lemma rotates_frame {A : Type} (m : M A) :
  (forall s, usage_counts (snd (m s)) = usage_counts s) -> rotates m.
Proof. intros H s. apply rotated_frame, H. Qed.

Lemma rotates_bind {A B : Type} (m : M A) (k : A -> M B) :
  rotates m -> (forall a, rotates (k a)) -> rotates (bind m k).
Proof.
  intros Hm Hk s. unfold bind. specialize (Hm s).
  destruct (m s) as [[e|a] s1]; cbn in *; [exact Hm|].
  eapply rotated_trans; [exact Hm|apply Hk].
Qed.

Lemma rotates_try_except {A : Type} (body : M A) (handler : exn -> M A) :
  rotates body -> (forall e, rotates (handler e)) ->
  rotates (try_except body handler).
Proof.
  intros Hm Hk s. unfold try_except. specialize (Hm s).
  destruct (body s) as [[e|a] s1]; cbn in *; [|exact Hm].
  eapply rotated_trans; [exact Hm|apply Hk].
Qed.

Lemma rotates_next_user_agent (W : World) : rotates (next_user_agent W).
Proof.
  intros s Hb. unfold next_user_agent.
  pose proof (get_next_user_agent_spec (random_index W (ticks s)) _
                (bal_nodup _ Hb)) as Hs.
  destruct (get_next_user_agent_balanced (random_index W (ticks s)) _ Hb)
    as (ua & counts & E & Hb' & _ & Ht).
  rewrite E in Hs |- *.
  cbn [snd usage_counts with_ticks with_history with_usage_counts].
  destruct Hs as (m & _ & _ & _ & _ & Hk).
  split; [exact Hb'|]. split; [exact Hk|]. rewrite Ht. lia.
Qed.

End Rotated.

Ltac rotates_step :=
  cbv zeta;
  first
    [ apply rotates_next_user_agent
    | apply rotates_try_except; [|intros]
    | apply rotates_bind; [|intros]
    | match goal with
      | |- rotates (match ?x with _ => _ end) => destruct x
      end
    | apply rotates_frame; reflexivity ].

Section RotatedMethods.

Variable W : World.

Lemma rotates_fetch_article_content (a : article) :
  rotates (fetch_article_content W a).
Proof.
  unfold fetch_article_content, random_uniform, time_sleep, session_get,
    raise_for_status.
  repeat rotates_step.
Qed.

Lemma rotates_get_news_list (category : string) :
  rotates (get_news_list W category).
Proof.
  unfold get_news_list, session_post, raise_for_status.
  repeat rotates_step.
Qed.

Lemma rotates_perform (act : action) (p : pool) : rotates (perform W act p).
Proof.
  unfold perform. destruct act as [k|k|k].
  - repeat rotates_step.
  - destruct (nth_error (tasks p) k) as [[a st]|]; [|repeat rotates_step].
    apply rotates_bind; [|intros; repeat rotates_step].
    intros s. unfold run_task.
    pose proof (rotates_fetch_article_content a s) as H.
    destruct (fetch_article_content W a s). exact H.
  - destruct (nth_error (tasks p) k) as [[a [| |[e|a']]]|];
      repeat rotates_step.
Qed.

Lemma rotates_pool_run (fuel : nat) (workers : Z) (p : pool) :
  rotates (pool_run W fuel workers p).
Proof.
  revert p; induction fuel as [|fuel IH]; intros p; cbn [pool_run].
  - apply rotates_frame. reflexivity.
  - apply rotates_bind; [|intros; apply IH].
    unfold pool_step. destruct (enabled workers p);
      [apply rotates_frame; reflexivity|].
    apply rotates_bind; [apply rotates_frame; reflexivity|].
    intros. apply rotates_perform.
Qed.

Lemma rotates_run_pool (workers : Z) (news_list : list article) :
  rotates (run_pool W workers news_list).
Proof.
  unfold run_pool. destruct (workers <=? 0);
    [apply rotates_frame; reflexivity|apply rotates_pool_run].
Qed.

Lemma rotates_process_category (category : string) :
  rotates (process_category W category).
Proof.
  unfold process_category.
  apply rotates_try_except; [|intros; repeat rotates_step].
  apply rotates_bind; [apply rotates_get_news_list|intros news_list].
  apply rotates_bind; [apply rotates_frame; reflexivity|intros c].
  apply rotates_bind; [apply rotates_run_pool|intros p].
  apply rotates_bind; [|intros; apply rotates_frame; reflexivity].
  unfold save_to_csv, json_dump.
  destruct (use_csv c); repeat rotates_step.
Qed.




End RotatedMethods.

(** ** The output of process_category *)

Section Artifacts.

Variable W : World.

Lemma successes_have_content (ts : list (article * status)) :
  Forall (fun t => forall o, snd t = Done o ->
              exists s1, o = fst (fetch_article_content W (fst t) s1)) ts ->
  Forall has_content (successes ts).
Proof.
  induction ts as [|[a st] ts IH]; intros H; [constructor|].
  inversion H as [|? ? Ha Hts]; subst.
  destruct st as [| |[e|a']]; cbn; auto.
  constructor; [|auto].
  destruct (Ha _ eq_refl) as [s1 Hs1]. symmetry in Hs1.
  apply fetch_returns in Hs1.
  destruct Hs1 as (p & ps & _ & _ & _ & Hc & _). now exists p, ps.
Qed.

Lemma flatten_all_rows (c : NewsScraperConfig) (l : list article) :
  Forall has_content l -> flatten_all c l = inr (map (row_of c) l).
Proof.
  induction 1 as [|a l (p & ps & Ha) Hl IH]; cbn; [reflexivity|].
  rewrite IH. unfold row_of, flat_article. rewrite Ha. reflexivity.
Qed.

(** X13. Every article that [process_category] collects carries at least one
    text block, so when the collected articles are flattened for the CSV
    file the [content] key is never missing: there is one row per
    collected article. *)
Theorem collected_articles_have_content (workers : Z)
        (news_list : list article) (s : scraper) (c : NewsScraperConfig) :
  0 < workers ->
  exists p s',
    run_pool W workers news_list s = (inr p, s') /\
    Forall has_content (processed_articles p) /\
    exists rows,
      flatten_all c (processed_articles p) = inr rows /\
      length rows = length (processed_articles p).
Proof.
  intros Hw.
  destruct (run_pool_final W _ news_list s Hw)
    as (p & s' & Hrun & Hinv & Hcur & Hall & Hd & Hext).
  exists p, s'. split; [exact Hrun|].
  assert (Hc : Forall has_content (processed_articles p)).
  { rewrite (inv_processed _ _ _ _ _ Hinv), Hall.
    apply successes_have_content. exact (inv_outcomes _ _ _ _ _ Hinv). }
  split; [exact Hc|]. exists (map (row_of c) (processed_articles p)).
  split; [now apply flatten_all_rows|apply length_map].
Qed.

(** X14. In JSON mode, when the listing came back and the file can be opened,
    [process_category] ends by writing one artifact that holds exactly the
    collected articles (the returned ones, in the order of the listing,
    possibly none) and by logging their number as successfully processed,
    without touching the failure flag, even if some items failed. *)
Theorem json_artifact_holds_the_collected_articles (category : string)
        (s : scraper) (news_list : list article) (s1 : scraper) :
  get_news_list W category s = (inr news_list, s1) ->
  0 < max_workers (config s) ->
  use_csv (config s) = false ->
  fs_ok W (artifact_path (config s) category) = true ->
  exists p s2 s3,
    run_pool W (max_workers (config s)) news_list s1 = (inr p, s2) /\
    process_category W category s = (inr tt, s3) /\
    history s3
    = history s2 ++ [EvWriteJson (artifact_path (config s) category)
                                 (successes (tasks p))] /\
    logged s3
    = logged s2 ++ [(INFO, SuccessfullyProcessed
                             (length (successes (tasks p))) category)] /\
    errors_occurred s3 = errors_occurred s2.
Proof.
  intros Hl Hw Hj Hfs.
  pose proof (keeps_get_news_list W category s) as Hk.
  rewrite Hl in Hk. cbn [snd] in Hk.
  pose proof (ext_config _ _ _ _ Hk) as Hc. rewrite <- Hc in *.
  destruct (run_pool_final W _ news_list s1 Hw)
    as (p & s2 & Hrun & Hinv & Hcur & Hall & Hd & Hext).
  exists p, s2. eexists. split; [exact Hrun|].
  rewrite (process_category_after_pool W _ _ _ _ _ _ Hl Hrun), Hj.
  unfold json_dump. rewrite Hfs.
  rewrite (inv_processed _ _ _ _ _ Hinv), Hall. cbn.
  split; [reflexivity|]. cbn. auto.
Qed.


(** *** save_to_csv *)

Lemma top_word_fields_keys (i : nat) (tw : list (string * Z)) :
  map fst (top_word_fields i tw) = top_word_keys i (length tw).
Proof.
  revert i; induction tw as [|[w n] tw IH]; intros i; cbn; [reflexivity|].
  now rewrite IH.
Qed.

Lemma row_of_keys (c : NewsScraperConfig) (a : article) :
  has_content a ->
  map fst (row_of c a) = base_keys ++ top_word_keys 1 (width c a).
Proof.
  intros (p & ps & Ha). unfold row_of, flat_article, width. rewrite Ha.
  rewrite map_app. cbn [map fst base_keys app].
  destruct (include_top_words c), (top_words a) as [tw|]; cbn [map];
    try reflexivity.
  now rewrite top_word_fields_keys.
Qed.

Definition in_header (n : nat) (k : csv_key) : bool :=
  existsb (csv_key_eqb k) (base_keys ++ top_word_keys 1 n).

Lemma in_top_word_keys (k : csv_key) (i n : nat) :
  existsb (csv_key_eqb k) (top_word_keys i n)
  = match k with
    | KTopWord j | KTopWordCount j => (i <=? j)%nat && (j <? i + n)%nat
    | _ => false
    end.
Proof.
  revert i; induction n as [|n IH]; intros i; cbn [top_word_keys existsb].
  - destruct k; try reflexivity;
      destruct (i <=? i0)%nat eqn:E1, (i0 <? i + 0)%nat eqn:E2; try reflexivity;
      apply Nat.leb_le in E1; apply Nat.ltb_lt in E2; lia.
  - rewrite IH. destruct k as [| | | | |j|j]; try reflexivity; cbn [csv_key_eqb].
    + destruct (Nat.eqb_spec j i) as [->|Hne]; cbn [orb].
      * symmetry. apply andb_true_iff. split;
          [apply Nat.leb_le|apply Nat.ltb_lt]; lia.
      * destruct (S i <=? j)%nat eqn:E1, (j <? S i + n)%nat eqn:E2,
          (i <=? j)%nat eqn:E3, (j <? i + S n)%nat eqn:E4; try reflexivity;
          repeat match goal with
                 | H : (_ <=? _)%nat = true |- _ => apply Nat.leb_le in H
                 | H : (_ <=? _)%nat = false |- _ => apply Nat.leb_gt in H
                 | H : (_ <? _)%nat = true |- _ => apply Nat.ltb_lt in H
                 | H : (_ <? _)%nat = false |- _ => apply Nat.ltb_ge in H
                 end; lia.
    + destruct (Nat.eqb_spec j i) as [->|Hne]; cbn [orb].
      * symmetry. apply andb_true_iff. split;
          [apply Nat.leb_le|apply Nat.ltb_lt]; lia.
      * destruct (S i <=? j)%nat eqn:E1, (j <? S i + n)%nat eqn:E2,
          (i <=? j)%nat eqn:E3, (j <? i + S n)%nat eqn:E4; try reflexivity;
          repeat match goal with
                 | H : (_ <=? _)%nat = true |- _ => apply Nat.leb_le in H
                 | H : (_ <=? _)%nat = false |- _ => apply Nat.leb_gt in H
                 | H : (_ <? _)%nat = true |- _ => apply Nat.ltb_lt in H
                 | H : (_ <? _)%nat = false |- _ => apply Nat.ltb_ge in H
                 end; lia.
Qed.

Lemma top_word_keys_fit (n i m : nat) :
  (1 <= i)%nat ->
  forallb (in_header n) (top_word_keys i m) = true <->
  m = 0%nat \/ (i + m <= 1 + n)%nat.
Proof.
  revert i; induction m as [|m IH]; intros i Hi; cbn [top_word_keys forallb].
  - split; auto.
  - unfold in_header at 1 2. rewrite !existsb_app, !in_top_word_keys.
    cbn [base_keys existsb csv_key_eqb orb].
    rewrite !andb_true_iff, IH by lia.
    rewrite !Nat.leb_le, !Nat.ltb_lt. split.
    + intros ((_ & H1) & (_ & H2) & [->|H3]); right; lia.
    + intros [H|H]; [discriminate|]. repeat split; lia.
Qed.

Lemma row_fits_width (c : NewsScraperConfig) (first a : article) :
  has_content first -> has_content a ->
  row_fits (map fst (row_of c first)) (row_of c a)
  = (width c a <=? width c first)%nat.
Proof.
  intros Hf Ha. unfold row_fits.
  assert (E : forallb (fun kv : csv_key * csv_value =>
                         existsb (csv_key_eqb (fst kv))
                                 (map fst (row_of c first))) (row_of c a)
              = forallb (in_header (width c first)) (map fst (row_of c a))).
  { rewrite (row_of_keys c first Hf). unfold in_header.
    induction (row_of c a) as [|kv l IH]; [reflexivity|].
    cbn [forallb map]. now rewrite IH. }
  rewrite E, (row_of_keys c a Ha), forallb_app. clear E.
  assert (Hbase : forallb (in_header (width c first)) base_keys = true)
    by reflexivity.
  rewrite Hbase. cbn [andb].
  destruct (width c a <=? width c first)%nat eqn:Hle.
  - apply Nat.leb_le in Hle. apply top_word_keys_fit; [lia|]. right. lia.
  - apply Nat.leb_gt in Hle.
    destruct (forallb (in_header (width c first))
                      (top_word_keys 1 (width c a))) eqn:Hfit; [|reflexivity].
    apply top_word_keys_fit in Hfit; lia.
Qed.

Lemma rows_written_leading (c : NewsScraperConfig) (first : article)
      (l : list article) :
  has_content first -> Forall has_content l ->
  let fits := fun a => (width c a <=? width c first)%nat in
  rows_written (map fst (row_of c first)) (map (row_of c) l)
  = map (row_of c) (leading fits l) /\
  forallb (row_fits (map fst (row_of c first))) (map (row_of c) l)
  = forallb fits l.
Proof.
  intros Hf Hl fits. induction Hl as [|a l Ha Hl [IH1 IH2]];
    cbn [map rows_written forallb leading]; [auto|].
  rewrite (row_fits_width c first a Hf Ha), IH1, IH2.
  change (fits a) with (width c a <=? width c first)%nat.
  destruct (width c a <=? width c first)%nat; auto.
Qed.

(** X15. [save_to_csv] takes its columns from the first article: the five fixed
    ones, then a pair of columns per top word of the first article.  An
    article with no more top words than the first fits; the first one with
    more makes [csv.DictWriter] raise [ValueError], after the file has been
    opened and the rows before that article have been written.  So the
    call returns exactly when no article has more top words than the
    first. *)
Theorem csv_columns_come_from_the_first_article (first : article)
        (others : list article) (output_path : path) (s : scraper) :
  Forall has_content (first :: others) ->
  fs_ok W output_path = true ->
  let c := config s in
  let fits := fun a => (width c a <=? width c first)%nat in
  save_to_csv W (first :: others) output_path s
  = (if forallb fits others then inr tt
     else inl (ValueError "dict contains fields not in fieldnames"),
     with_history
       (history s
        ++ [EvWriteCsv output_path
                       (base_keys ++ top_word_keys 1 (width c first))
                       (map (row_of c) (leading fits (first :: others)))])
       s).
Proof.
  intros Hall Hfs c fits.
  assert (Hf : has_content first) by now inversion Hall.
  destruct (rows_written_leading c first (first :: others) Hf Hall)
    as [Hrows Hfit].
  cbn [map] in Hrows, Hfit.
  unfold save_to_csv. unfold_monad.
  rewrite (flatten_all_rows _ _ Hall). cbn [map]. rewrite Hfs.
  fold c. rewrite Hrows, Hfit, (row_of_keys c first Hf).
  cbn [forallb]. rewrite Nat.leb_refl. cbn [andb]. fold fits.
  destruct (forallb fits others); reflexivity.
Qed.

End Artifacts.

(** ** get_top_words: what the summary leaves out *)

Section Ranking.








End Ranking.

(** ** The progress bar of process_category *)

Section Progress.

Variable W : World.

Lemma after_listing_fetch_article_content (a : article) :
  keeps after_listing not_article_error (fetch_article_content W a).
Proof.
  unfold fetch_article_content, random_uniform, time_sleep, session_get,
    raise_for_status.
  repeat keeps_step.
Qed.

Lemma after_listing_perform (act : action) (p : pool) :
  keeps after_listing any_record (perform W act p).
Proof.
  unfold perform. destruct act as [k|k|k].
  - repeat keeps_step.
  - destruct (nth_error (tasks p) k) as [[a st]|]; [|apply keeps_ret].
    apply keeps_bind; [|intros; apply keeps_ret].
    intros s. unfold run_task.
    pose proof (after_listing_fetch_article_content a s) as H.
    destruct (fetch_article_content W a s).
    eapply extends_weaken; [| |exact H]; auto.
  - destruct (nth_error (tasks p) k) as [[a [| |[e|a']]]|] eqn:Hk;
      [apply keeps_ret|apply keeps_ret|repeat keeps_step| |apply keeps_ret].
    apply keeps_bind; [|intros; apply keeps_ret].
    apply keeps_emit. unfold after_listing. cbn [progress_in_range is_post].
    assert (Hlt : (k < List.length (tasks p))%nat)
      by (apply nth_error_Some; congruence).
    rewrite andb_true_r. apply andb_true_iff.
    split; [reflexivity|]. apply Nat.leb_le. lia.
Qed.

Lemma after_listing_pool_run (fuel : nat) (workers : Z) (p : pool) :
  keeps after_listing any_record (pool_run W fuel workers p).
Proof.
  revert p; induction fuel as [|fuel IH]; intros p; cbn [pool_run].
  - apply keeps_ret.
  - apply keeps_bind; [|intros; apply IH].
    unfold pool_step. destruct (enabled workers p); [apply keeps_ret|].
    apply keeps_bind; [apply keeps_consult|intros; apply after_listing_perform].
Qed.

(** The part of [process_category] that follows the listing. *)
Definition after_the_listing (category : string) (news_list : list article)
  : M unit :=
  c <- get_config ;;
  p <- run_pool W (max_workers c) news_list ;;
  let extension := if use_csv c then "csv" else "json" in
  let output_path :=
    Artifact (output_dir c) category (headlines_per_category c) extension in
  (if use_csv c
   then save_to_csv W (processed_articles p) output_path
   else json_dump W (processed_articles p) output_path) ;;;
  logger_info
    (SuccessfullyProcessed (List.length (processed_articles p)) category).

Lemma after_listing_rest (category : string) (news_list : list article) :
  keeps after_listing any_record (after_the_listing category news_list).
Proof.
  unfold after_the_listing.
  apply keeps_bind; [apply keeps_get_config|intros c].
  apply keeps_bind.
  { unfold run_pool. destruct (max_workers c <=? 0); [apply keeps_raise|].
    apply after_listing_pool_run. }
  intros p. apply keeps_bind; [|intros; apply keeps_logger_info; reflexivity].
  destruct (use_csv c).
  - unfold save_to_csv. repeat keeps_step.
  - unfold json_dump. repeat keeps_step.
Qed.

Lemma process_category_eq (category : string) :
  process_category W category
  = try_except
      (news_list <- get_news_list W category ;;
       after_the_listing category news_list)
      (fun e =>
         logger_error (ErrorProcessingCategory category e) ;;;
         set_errors_occurred).
Proof. reflexivity. Qed.

Lemma progress_get_news_list (category : string) :
  keeps progress_in_range not_article_error (get_news_list W category).
Proof.
  unfold get_news_list, session_post, raise_for_status.
  repeat keeps_step.
Qed.

Lemma after_listing_in_range (e : event) :
  after_listing e = true -> progress_in_range e = true.
Proof. unfold after_listing. intros H. now apply andb_true_iff in H. Qed.

Lemma progress_process_category (category : string) :
  keeps progress_in_range any_record (process_category W category).
Proof.
  rewrite process_category_eq.
  apply keeps_try_except; [|intros; apply keeps_failure_last; reflexivity].
  apply keeps_bind.
  { intros s. eapply extends_weaken; [| |apply progress_get_news_list]; auto. }
  intros news_list s.
  eapply extends_weaken; [| |apply after_listing_rest];
    auto using after_listing_in_range.
Qed.

Lemma bar_in_range (i n : nat) :
  (1 <= i <= n)%nat ->
  exists hashes blanks,
    ProgressBar.update (ProgressBar.__init__ (Z.of_nat n)) (Z.of_nat i)
    = Some (hashes, blanks, (n <=? i)%nat) /\
    (hashes + blanks = 50)%nat /\
    (hashes = 50%nat <-> i = n).
Proof.
  intros Hin.
  unfold ProgressBar.update, ProgressBar._format_bar, ProgressBar.__init__.
  cbn [ProgressBar.total ProgressBar.length].
  destruct (Z.eqb_spec (Z.of_nat n) 0) as [E|_]; [lia|].
  set (q := 50 * Z.of_nat i / Z.of_nat n).
  assert (Hlo : Z.of_nat n * q <= 50 * Z.of_nat i)
    by (apply Z.mul_div_le; lia).
  assert (Hhi : 50 * Z.of_nat i < Z.of_nat n * Z.succ q)
    by (apply Z.mul_succ_div_gt; lia).
  assert (Hq : 0 <= q <= 50) by nia.
  exists (Z.to_nat q), (Z.to_nat (50 - q)). split; [|split].
  - do 2 f_equal.
    destruct (Nat.leb_spec n i), (Z.leb_spec (Z.of_nat n) (Z.of_nat i));
      (reflexivity || lia).
  - lia.
  - split; intros H.
    + assert (q = 50) by lia. nia.
    + subst i. assert (q = 50) by nia. lia.
Qed.

(** X17. Every progress line that [process_category] prints is for an item
    count between 1 and the total of its bar.  So [_format_bar] never
    divides by zero, what it draws between the brackets is always 50
    characters wide, and the bar is full exactly when the count reaches
    the total, which is also exactly when [update] ends the line. *)
Theorem progress_bar_stays_in_range (category : string) (s : scraper) :
  exists evs,
    history (snd (process_category W category s)) = history s ++ evs /\
    forall i n,
      In (EvStdout (ProgressLine i n)) evs ->
      (1 <= i <= n)%nat /\
      exists hashes blanks,
        ProgressBar.update (ProgressBar.__init__ (Z.of_nat n)) (Z.of_nat i)
        = Some (hashes, blanks, (n <=? i)%nat) /\
        (hashes + blanks = 50)%nat /\
        (hashes = 50%nat <-> i = n).
Proof.
  destruct (progress_process_category category s)
    as [_ (evs & Hh & Hp) _].
  exists evs. split; [exact Hh|]. intros i n Hin.
  rewrite forallb_forall in Hp. specialize (Hp _ Hin).
  cbn [progress_in_range] in Hp. apply andb_true_iff in Hp.
  destruct Hp as [H1 H2]. apply Nat.leb_le in H1. apply Nat.leb_le in H2.
  split; [lia|]. apply bar_in_range. lia.
Qed.

End Progress.

(** ** The listing requests of a run *)

Section Requests.

Variable W : World.

Lemma posted_app (l1 l2 : list event) :
  posted (l1 ++ l2) = posted l1 ++ posted l2.
Proof. apply flat_map_app. Qed.

Lemma posted_none (evs : list event) :
  forallb after_listing evs = true -> posted evs = [].
Proof.
  induction evs as [|e evs IH]; [reflexivity|]. cbn [forallb posted flat_map].
  intros H. apply andb_true_iff in H. destruct H as [He Hevs].
  fold (posted evs). rewrite (IH Hevs).
  unfold after_listing in He. apply andb_true_iff in He.
  destruct He as [_ He]. destruct e; try reflexivity. discriminate.
Qed.

Lemma process_category_posts (category : string) (sectionId : Z)
      (s : scraper) :
  balanced (usage_counts s) ->
  dict_get CATEGORY_MAP category = Some sectionId ->
  exists evs,
    history (snd (process_category W category s)) = history s ++ evs /\
    posted evs = [(sectionId, headlines_per_category (config s))].
Proof.
  intros Hb Hid.
  destruct (get_next_user_agent_balanced (random_index W (ticks s)) _ Hb)
    as (ua & counts & Hua & _).
  rewrite process_category_eq. unfold try_except, bind at 1.
  rewrite get_news_list_eq. cbv zeta. rewrite Hua, Hid.
  set (r := categoryNewsList W sectionId (headlines_per_category (config s))).
  destruct (listing_result W r) as [e|arts].
  - cbn. exists [EvIdentity ua;
                 EvPost listing_url ua sectionId
                        (headlines_per_category (config s)) (attempts_of r)].
    split; [now rewrite <- app_assoc|reflexivity].
  - cbv beta.
    match goal with
    | |- context [after_the_listing W category arts ?s2] =>
        pose proof (after_listing_rest W category arts s2) as Hk;
        destruct (after_the_listing W category arts s2) as [[e|[]] s3]
    end;
      destruct Hk as [_ (evs & Hh & Hp) _]; cbn in Hh; cbn; rewrite Hh;
      (exists ([EvIdentity ua;
                EvPost listing_url ua sectionId
                       (headlines_per_category (config s)) (attempts_of r)]
               ++ evs));
      (split; [now rewrite <- !app_assoc|]);
      rewrite posted_app, (posted_none _ Hp); reflexivity.
Qed.

Lemma for_categories_posts (cats : list string) (s : scraper) :
  balanced (usage_counts s) ->
  exists evs,
    history (snd (for_categories W cats s)) = history s ++ evs /\
    posted evs
    = map (fun sectionId => (sectionId, headlines_per_category (config s)))
          (known_sections cats).
Proof.
  revert s; induction cats as [|category rest IH]; intros s Hb.
  - exists []. cbn. now rewrite app_nil_r.
  - cbn [for_categories known_sections flat_map]. fold (known_sections rest).
    unfold bind at 1. unfold dict_mem.
    destruct (dict_get CATEGORY_MAP category) as [sectionId|] eqn:Hid.
    + unfold bind at 1.
      pose proof (process_category_returns W category s) as Hr.
      pose proof (keeps_process_category W category s) as Hk.
      pose proof (rotates_process_category W category s Hb) as [Hb1 _].
      destruct (process_category_posts category sectionId s Hb Hid)
        as (evs1 & Hh1 & Hp1).
      destruct (process_category W category s) as [r s1].
      cbn [fst snd] in *. subst r. cbn [emit].
      set (s2 := with_history (history s1 ++ [EvStdout EmptyLine]) s1).
      destruct (IH s2 Hb1) as (evs2 & Hh2 & Hp2).
      exists (evs1 ++ [EvStdout EmptyLine] ++ evs2).
      split.
      * rewrite Hh2. subst s2. cbn [history with_history]. rewrite Hh1.
        now rewrite <- !app_assoc.
      * rewrite !posted_app, Hp1, Hp2. cbn [posted flat_map app map].
        subst s2. cbn [config with_history].
        now rewrite (ext_config _ _ _ _ Hk).
    + cbn [app]. unfold bind, logger_error, set_errors_occurred.
      match goal with
      | |- context [for_categories W rest ?s1] =>
          destruct (IH s1 Hb) as (evs & Hh & Hp)
      end.
      exists evs. split; [exact Hh|exact Hp].
Qed.

(** X18. A run that passes validation with a balanced pool of identities sends
    exactly one listing request for each configured category that
    [CATEGORY_MAP] knows, in the configured order, each for the section of
    its category and with [headlines_per_category] as the limit.  No
    failure changes that: a category that fails does not stop the
    categories after it, no listing is asked for twice, and a name that is
    not known costs no request. *)
Theorem one_listing_request_per_known_category (s : scraper) :
  validate (config s) = inr tt ->
  balanced (usage_counts s) ->
  exists evs,
    history (snd (run W s)) = history s ++ evs /\
    posted evs
    = map (fun sectionId => (sectionId, headlines_per_category (config s)))
          (known_sections (categories (config s))).
Proof.
  intros Hv Hb. unfold run, bind at 1, get_config.
  unfold bind at 1, lift. rewrite Hv. unfold bind at 1.
  pose proof (for_categories_returns W (categories (config s)) s) as Hr.
  destruct (for_categories_posts (categories (config s)) s Hb)
    as (evs & Hh & Hp).
  destruct (for_categories W (categories (config s)) s) as [r s1].
  cbn [fst snd] in *. subst r. exists evs. split; [|exact Hp].
  unfold report. destruct (negb (errors_occurred s1)); exact Hh.
Qed.

End Requests.

(** ** The pool of identities *)

Section Identities.

Lemma chrome_loop_length (data : list (option string)) (indices : list nat)
      (versions : list string) :
  chrome_loop data indices = Some versions ->
  length versions = length indices.
Proof.
  revert versions; induction indices as [|i rest IH]; intros versions H;
    cbn [chrome_loop] in H.
  - now injection H as <-.
  - destruct (nth_error data i) as [[version|]|]; try discriminate.
    destruct (chrome_loop data rest) as [vs|]; [|discriminate].
    injection H as <-. cbn [length]. now rewrite (IH vs).
Qed.

Lemma chrome_versions_length (reply : chrome_reply) :
  length (_get_chrome_versions reply) = 20%nat.
Proof.
  unfold _get_chrome_versions.
  destruct reply as [data|]; [|reflexivity].
  destruct (chrome_loop data chrome_indices) as [vs|] eqn:E; [|reflexivity].
  rewrite length_app, (chrome_loop_length _ _ _ E). reflexivity.
Qed.

Lemma firefox_versions_length (current_major : option Z) :
  length (_get_firefox_versions current_major) = 20%nat.
Proof.
  destruct current_major as [m|]; [|reflexivity].
  unfold _get_firefox_versions. now rewrite !length_app, !repeat_length.
Qed.

Lemma agents_length (agent : string -> string -> string)
      (mac_version : string) (draws : nat -> os_type * architecture)
      (i : nat) (versions : list string) :
  length (agents agent mac_version draws i versions) = length versions.
Proof.
  revert i; induction versions as [|v rest IH]; intros i; cbn [agents];
    [reflexivity|].
  destruct (draws i). cbn [length]. now rewrite IH.
Qed.

Lemma agents_In (agent : string -> string -> string) (mac_version : string)
      (draws : nat -> os_type * architecture) (i : nat)
      (versions : list string) (ua : string) :
  In ua (agents agent mac_version draws i versions) ->
  exists os arch version, ua = agent (platform mac_version os arch) version.
Proof.
  revert i; induction versions as [|v rest IH]; intros i; cbn [agents];
    [intros []|].
  destruct (draws i) as [os arch]. intros [<-|H]; [|exact (IH _ H)].
  now exists os, arch, v.
Qed.

Lemma chrome_is_not_firefox (os1 os2 : os_type) (arch1 arch2 : architecture)
      (v1 v2 : string) :
  chrome_agent (platform "10_15_7" os1 arch1) v1
  <> firefox_agent (platform "10.15" os2 arch2) v2.
Proof.
  unfold chrome_agent, firefox_agent.
  destruct os1, arch1, os2, arch2; cbn; discriminate.
Qed.

Lemma dict_set_keys_In {V : Type} (d : dict V) (k k' : string) (v : V) :
  In k (dict_keys (dict_set d k' v)) <-> k = k' \/ In k (dict_keys d).
Proof.
  induction d as [|[k0 v0] d IH]; cbn.
  - intuition.
  - destruct (String.eqb_spec k0 k') as [->|Hne]; cbn; [intuition|].
    rewrite IH. intuition.
Qed.

Lemma init_usage_counts_keys (uas : list string) (d : dict Z) (k : string) :
  In k (dict_keys (fold_left (fun d ua => dict_set d ua 0) uas d)) <->
  In k (dict_keys d) \/ In k uas.
Proof.
  revert d; induction uas as [|ua rest IH]; intros d; cbn [fold_left In].
  - intuition.
  - rewrite IH, dict_set_keys_In. intuition.
Qed.

(** X19. Whatever the two version services answer, and however the draws
    fall, the rotator starts with 40 user agent strings.  As keys of
    [usage_counts] repeated strings count once, so the pool holds between
    2 and 40 identities, the strings generated and no other, each with
    count 0: it is balanced, and [min] in [get_next_user_agent] does not
    meet an empty pool.  So after a constructor that returns, the rotator
    is balanced. *)
Theorem pool_of_identities_is_never_empty
        (draws : nat -> os_type * architecture) (chrome : chrome_reply)
        (firefox : option Z) :
  let uas := user_agents draws chrome firefox in
  let counts := init_usage_counts uas in
  length uas = 40%nat /\
  (forall ua, In ua (dict_keys counts) <-> In ua uas) /\
  (forall ua, In ua uas -> dict_get counts ua = Some 0) /\
  (2 <= length counts <= 40)%nat /\
  balanced counts /\
  forall W s,
    generated_user_agents W = uas ->
    fst (__init__ W s) = inr tt ->
    balanced (usage_counts (snd (__init__ W s))).
Proof.
  intros uas counts.
  assert (Hlen : length uas = 40%nat).
  { unfold uas, user_agents, _generate_user_agents.
    now rewrite length_app, !agents_length, chrome_versions_length,
      firefox_versions_length. }
  assert (Hne : uas <> []) by (intros E; rewrite E in Hlen; discriminate).
  assert (Hkeys : forall ua, In ua (dict_keys counts) <-> In ua uas).
  { intros ua. unfold counts, init_usage_counts.
    rewrite init_usage_counts_keys. cbn. intuition. }
  destruct (init_usage_counts_zero uas []) as (Hnd & Hz & _);
    [constructor|intros x []|]. cbv zeta in Hnd, Hz.
  fold (init_usage_counts uas) in Hnd, Hz. fold counts in Hnd, Hz.
  assert (Hb : balanced counts) by exact (init_usage_counts_balanced uas Hne).
  split; [exact Hlen|]. split; [exact Hkeys|]. split; [|split; [|split]].
  - intros ua Hin. apply Hkeys in Hin. unfold dict_keys in Hin.
    apply in_map_iff in Hin. destruct Hin as ([k v] & E & Hin).
    cbn in E. subst k. rewrite (dict_get_in _ _ _ Hnd Hin). f_equal.
    apply Hz. unfold dict_values. exact (in_map snd _ _ Hin).
  - replace (length counts) with (length (dict_keys counts))
      by (unfold dict_keys; apply length_map).
    split.
    + unfold uas, user_agents, _generate_user_agents in Hkeys.
      pose proof (chrome_versions_length chrome) as Hc.
      pose proof (firefox_versions_length firefox) as Hf.
      set (cv := _get_chrome_versions chrome) in *.
      set (fv := _get_firefox_versions firefox) in *.
      pose proof (agents_length chrome_agent "10_15_7" draws 0 cv) as Hca.
      pose proof (agents_length firefox_agent "10.15" draws (length cv) fv)
        as Hfa.
      pose proof (agents_In chrome_agent "10_15_7" draws 0 cv) as Hci.
      pose proof (agents_In firefox_agent "10.15" draws (length cv) fv)
        as Hfi.
      destruct (agents chrome_agent "10_15_7" draws 0 cv) as [|c cs];
        [cbn in Hca; lia|].
      destruct (agents firefox_agent "10.15" draws (length cv) fv) as [|f fs];
        [cbn in Hfa; lia|].
      assert (Hcf : c <> f).
      { destruct (Hci c (or_introl eq_refl)) as (o1 & a1 & v1 & ->).
        destruct (Hfi f (or_introl eq_refl)) as (o2 & a2 & v2 & ->).
        apply chrome_is_not_firefox. }
      assert (Hinc : incl [c; f] (dict_keys counts)).
      { intros x [<-|[<-|[]]]; apply Hkeys, in_or_app; cbn; auto. }
      apply (NoDup_incl_length (l := [c; f])) in Hinc; [exact Hinc|].
      constructor; [intros [E|[]]; now apply Hcf|].
      constructor; [intros []|constructor].
    + rewrite <- Hlen. apply NoDup_incl_length; [exact Hnd|].
      intros x Hx. now apply Hkeys.
  - exact Hb.
  - intros W s Hgen. unfold __init__, mkdir, open_log. unfold_monad.
    repeat (split_match; cbn); intros H; try discriminate.
    rewrite Hgen. exact Hb.
Qed.

End Identities.

(** * Examples of the further properties *)

Lemma example_scraper_balanced : balanced (usage_counts example_scraper).
Proof.
  apply (init_usage_counts_balanced
           ["agent A"; "agent B"; "agent A"; "agent C"]).
  discriminate.
Qed.

Lemma unknown_category_raises_before_any_request_witness :
  exists ua s',
    get_news_list example_world "weather" example_scraper
    = (inl (KeyError "weather"), s') /\
    history s' = history example_scraper ++ [EvIdentity ua] /\
    logged s' = logged example_scraper ++ [(INFO, FetchingNewsList "weather")] /\
    errors_occurred s' = errors_occurred example_scraper /\
    total (dict_values (usage_counts s'))
    = total (dict_values (usage_counts example_scraper)) + 1.
Proof.
  apply (unknown_category_raises_before_any_request
           example_world "weather" example_scraper).
  - exact example_scraper_balanced.
  - reflexivity.
Defined.

Lemma listing_mirrors_the_response_witness :
  exists ua n,
    history (snd (get_news_list example_world "politics" example_scraper))
    = history example_scraper
      ++ [EvIdentity ua; EvPost listing_url ua 4954 3 n].
Proof.
  destruct (listing_mirrors_the_response
              example_world "politics" example_scraper
              [example_article "1"; example_article "2"; example_article "3"]
              (snd (get_news_list example_world "politics" example_scraper)))
    as (ua & sectionId & n & code & items & Hsec & _ & _ & Hh & _).
  - vm_compute. reflexivity.
  - exists ua, n. vm_compute in Hsec. injection Hsec as Hsec. subst sectionId.
    exact Hh.
Defined.

Lemma listing_failure_is_logged_and_raised_witness :
  errors_occurred (snd (get_news_list example_world "world" example_scraper))
  = true.
Proof.
  destruct (listing_failure_is_logged_and_raised
              example_world "world" example_scraper
              (RequestException "connection refused")
              (snd (get_news_list example_world "world" example_scraper)))
    as [(Hno & _)|(ua & sectionId & n & _ & _ & _ & Hf)].
  - vm_compute. reflexivity.
  - exfalso. vm_compute in Hno. discriminate.
  - exact Hf.
Defined.



Lemma fetch_failure_is_logged_and_raised_witness :
  errors_occurred
    (snd (fetch_article_content example_world (example_article "2")
                                example_scraper))
  = true.
Proof.
  destruct (fetch_failure_is_logged_and_raised
              example_world (example_article "2") example_scraper
              (ValueError "No content found in article")
              (snd (fetch_article_content example_world (example_article "2")
                                          example_scraper)))
    as [(Hno & _)|(ua & d & _ & _ & Hf & _)].
  - vm_compute. reflexivity.
  - exfalso. vm_compute in Hno. discriminate.
  - exact Hf.
Defined.

Lemma next_agent_is_a_least_used_one_witness :
  get_next_user_agent 1 [("a", 1); ("b", 0); ("c", 0)]
  = inr ("c", [("a", 1); ("b", 0); ("c", 1)]) /\
  exists m,
    py_min [1; 0; 0] = Some m /\
    dict_get [("a", 1); ("b", 0); ("c", 0)] "c" = Some m.
Proof.
  split; [reflexivity|].
  pose proof (next_agent_is_a_least_used_one
                1 [("a", 1); ("b", 0); ("c", 0)]) as H.
  cbn in H. destruct H as (m & Hm & Hc & _).
  - repeat constructor; cbn; intuition discriminate.
  - exists m. split; [exact Hm|exact Hc].
Defined.

Lemma no_reuse_unless_unique_minimum_witness :
  exists m,
    dict_get [("a", 0); ("b", 2)] "a" = Some m /\
    forall k n, dict_get [("a", 0); ("b", 2)] k = Some n -> k <> "a" -> m < n.
Proof.
  apply (no_reuse_unless_unique_minimum
           0 0 [("a", 0); ("b", 2)] [("a", 1); ("b", 2)]
           [("a", 2); ("b", 2)] "a").
  - repeat constructor; cbn; intuition discriminate.
  - reflexivity.
  - reflexivity.
Defined.


Lemma collected_articles_have_content_witness :
  exists p s',
    run_pool example_world 2
             [example_article "1"; example_article "2"; example_article "3"]
             example_scraper = (inr p, s') /\
    Forall has_content (processed_articles p) /\
    exists rows,
      flatten_all example_config (processed_articles p) = inr rows /\
      length rows = length (processed_articles p).
Proof.
  apply (collected_articles_have_content
           example_world 2
           [example_article "1"; example_article "2"; example_article "3"]
           example_scraper example_config).
  reflexivity.
Defined.

Lemma json_artifact_holds_the_collected_articles_witness :
  exists articles,
    In (EvWriteJson (artifact_path example_config "politics") articles)
       (history (snd (process_category example_world "politics"
                                       example_scraper))).
Proof.
  destruct (json_artifact_holds_the_collected_articles
              example_world "politics" example_scraper
              [example_article "1"; example_article "2"; example_article "3"]
              (snd (get_news_list example_world "politics" example_scraper)))
    as (p & s2 & s3 & _ & Hp & Hh & _).
  - vm_compute. reflexivity.
  - reflexivity.
  - reflexivity.
  - reflexivity.
  - exists (successes (tasks p)). rewrite Hp. cbn [snd]. rewrite Hh.
    apply in_or_app. right. left. reflexivity.
Defined.

Lemma csv_columns_come_from_the_first_article_witness :
  save_to_csv example_world
              [fetched_article "1" [("cat", 2)];
               fetched_article "2" [];
               fetched_article "3" [("cat", 1); ("dog", 1)];
               fetched_article "4" [("cat", 3)]]
              (Artifact "news_data" "politics" 3 "csv") csv_scraper
  = (inl (ValueError "dict contains fields not in fieldnames"),
     with_history
       (history csv_scraper
        ++ [EvWriteCsv (Artifact "news_data" "politics" 3 "csv")
                       [KTitle; KDescription; KDate; KLink; KContent;
                        KTopWord 1; KTopWordCount 1]
                       (map (row_of (config csv_scraper))
                            [fetched_article "1" [("cat", 2)];
                             fetched_article "2" []])])
       csv_scraper).
Proof.
  apply (csv_columns_come_from_the_first_article
           example_world (fetched_article "1" [("cat", 2)])
           [fetched_article "2" [];
            fetched_article "3" [("cat", 1); ("dog", 1)];
            fetched_article "4" [("cat", 3)]]
           (Artifact "news_data" "politics" 3 "csv") csv_scraper).
  - repeat constructor; now exists "Some text.", [].
  - reflexivity.
Defined.

Lemma one_listing_request_per_known_category_witness :
  exists evs,
    history (snd (run example_world example_scraper))
    = history example_scraper ++ evs /\
    posted evs = [(4954, 3)].
Proof.
  apply (one_listing_request_per_known_category example_world example_scraper).
  - reflexivity.
  - exact example_scraper_balanced.
Defined.
